(** * geoBuffer generator: a shallow embedding of [app.py]

    The processing functions of [app.py] ([parse_level_file],
    [analyze_chunks], [generate_geobuffer_list], [write_output],
    [run_processing]) and the module-level configuration code (the
    conversion map, the roller mappings, [apply_roller_mapping]) are
    written as Rocq functions, and the properties of the specification are
    proved about them.

    Conventions.
    - Python [int] is [Z].
    - A Python [dict] is an association list with one entry per key, kept
      in insertion order: assigning to a key that is present replaces the
      value in place, assigning to a new key appends.  Iteration
      ([items()], [for k in d]) follows the list.
    - Python [str] is [string]; the text is taken to be ASCII (code points
      above 127 are neither white space nor digits here).  [str.strip()]
      and [int()] do not agree on white space, and each has its own
      predicate.
    - An exception that the code does not catch is a [Raise] result. *)

From Stdlib Require Import String Ascii DecimalString.
From Stdlib Require DecimalPos DecimalFacts.
From Stdlib Require Import List ZArith Lia Bool Permutation Sorted.
Import ListNotations.

Local Open Scope Z_scope.

(** ** Exceptions *)

Inductive exn : Type :=
| KeyError
| IndexError
| OSError
| UnicodeDecodeError
| AttributeError
| TypeError.

Inductive pyres (A : Type) : Type :=
| Ok (a : A)
| Raise (e : exn).

Arguments Ok {A} a.
Arguments Raise {A} e.

Definition bind {A B : Type} (m : pyres A) (k : A -> pyres B) : pyres B :=
  match m with
  | Ok a => k a
  | Raise e => Raise e
  end.

Notation "x <- m ;; k" := (bind m (fun x => k))
  (at level 61, m at next level, right associativity).

(** A [for] loop whose body may raise: the state is threaded through the
    iterations, the first exception ends the loop. *)
Fixpoint for_each {A S : Type} (xs : list A) (body : S -> A -> pyres S)
  (s : S) : pyres S :=
  match xs with
  | [] => Ok s
  | x :: xs' => s' <- body s x ;; for_each xs' body s'
  end.

(** ** Insertion-ordered dictionaries *)

Module PyDict.
Section Dict.
Context {K V : Type}.
Variable K_eq_dec : forall a b : K, {a = b} + {a <> b}.

Definition dict : Type := list (K * V).

(** [d.get(k)] *)
Fixpoint get (d : dict) (k : K) : option V :=
  match d with
  | [] => None
  | (k', v) :: d' => if K_eq_dec k k' then Some v else get d' k
  end.

(** [d.get(k, dflt)] *)
Definition get_default (d : dict) (k : K) (dflt : V) : V :=
  match get d k with
  | Some v => v
  | None => dflt
  end.

(** [d[k]], which raises [KeyError] on a missing key *)
Definition getitem (d : dict) (k : K) : pyres V :=
  match get d k with
  | Some v => Ok v
  | None => Raise KeyError
  end.

(** [k in d] *)
Definition mem (k : K) (d : dict) : bool :=
  match get d k with
  | Some _ => true
  | None => false
  end.

(** [d[k] = v] *)
Fixpoint set (k : K) (v : V) (d : dict) : dict :=
  match d with
  | [] => [(k, v)]
  | (k', v') :: d' =>
      if K_eq_dec k k' then (k', v) :: d' else (k', v') :: set k v d'
  end.

Definition keys (d : dict) : list K := map fst d.
Definition items (d : dict) : list (K * V) := d.
End Dict.
Arguments dict : clear implicits.
End PyDict.

Import PyDict.

(** ** Ranges and slices *)

(** [range(0, n)] *)
Definition py_range0 (n : Z) : list Z :=
  map Z.of_nat (seq 0 (Z.to_nat n)).

(** How a slice bound is brought into [0 .. len]: a negative bound counts
    from the end, and whatever is still outside is clamped. *)
Definition slice_bound (len i : Z) : Z :=
  if i <? 0 then Z.max (i + len) 0 else Z.min i len.

(** [l[start:stop]] *)
Definition py_slice {A : Type} (l : list A) (start stop : Z) : list A :=
  let len := Z.of_nat (length l) in
  let lo := slice_bound len start in
  let hi := slice_bound len stop in
  firstn (Z.to_nat (hi - lo)) (skipn (Z.to_nat lo) l).

(** ** The data model *)

Definition Category : Type := (Z * Z)%type.
Definition ConvMap : Type := dict Z Category.
Definition GeoBufferEntry : Type := (Z * Z * Z)%type.

Definition cat_eq_dec : forall a b : Category, {a = b} + {a <> b}.
Proof. decide equality; apply Z.eq_dec. Defined.

(** ** [analyze_chunks] *)

(** The inner two loops: the frequency table of one window. *)
Definition count_item (conv_map : ConvMap) (freq : dict Z Z) (item : Z)
  : dict Z Z :=
  if mem Z.eq_dec item conv_map
  then set Z.eq_dec item (get_default Z.eq_dec freq item 0 + 1) freq
  else freq.

Definition count_row (conv_map : ConvMap) (freq : dict Z Z) (row : list Z)
  : dict Z Z :=
  fold_left (count_item conv_map) row freq.

Definition window_freq (conv_map : ConvMap) (window : list (list Z))
  : dict Z Z :=
  fold_left (count_row conv_map) window [].

(** The loop over [freq.items()]. *)
Definition raise_max (max_counts : dict Z Z) (kc : Z * Z)
  : pyres (dict Z Z) :=
  let '(item_id, count) := kc in
  cur <- getitem Z.eq_dec max_counts item_id ;;
  Ok (if count >? cur then set Z.eq_dec item_id count max_counts
      else max_counts).

(** [{item_id: 0 for item_id in conv_map}] *)
Definition zero_counts (conv_map : ConvMap) : dict Z Z :=
  fold_left (fun d item_id => set Z.eq_dec item_id 0 d) (keys conv_map) [].

Definition analyze_window (level_rows : list (list Z)) (chunk_size : Z)
  (conv_map : ConvMap) (max_counts : dict Z Z) (start : Z)
  : pyres (dict Z Z) :=
  let window := py_slice level_rows start (start + chunk_size) in
  let freq := window_freq conv_map window in
  for_each (items freq) raise_max max_counts.

Definition analyze_chunks (level_rows : list (list Z)) (chunk_size : Z)
  (conv_map : ConvMap) : pyres (dict Z Z) :=
  let max_counts := zero_counts conv_map in
  let total_rows := Z.of_nat (length level_rows) in
  for_each (py_range0 (total_rows - chunk_size + 1))
    (analyze_window level_rows chunk_size conv_map) max_counts.

(** ** [generate_geobuffer_list] *)

(** The body of the loop over [conv_map.items()]. *)
Definition add_count (max_counts : dict Z Z) (geo_dict : dict Category Z)
  (kv : Z * Category) : dict Category Z :=
  let '(level_id, (x, y)) := kv in
  let count := get_default Z.eq_dec max_counts level_id 0 in
  if count >? 0
  then set cat_eq_dec (x, y) (get_default cat_eq_dec geo_dict (x, y) 0 + count)
         geo_dict
  else geo_dict.

Definition fold_counts (conv_map : ConvMap) (max_counts : dict Z Z)
  : dict Category Z :=
  fold_left (add_count max_counts) (items conv_map) [].

(** [list.sort(key=...)] is a stable sort; it is written here as the
    insertion sort that puts an element before the first one whose key is
    not smaller. *)
Section StableSort.
Context {A : Type}.
Variable key : A -> Z.

Fixpoint insert_by (a : A) (l : list A) : list A :=
  match l with
  | [] => [a]
  | b :: l' => if key a <=? key b then a :: b :: l' else b :: insert_by a l'
  end.

Definition sort_by (l : list A) : list A :=
  fold_right insert_by [] l.
End StableSort.

Definition entry_x (e : GeoBufferEntry) : Z := fst (fst e).
Definition entry_cat (e : GeoBufferEntry) : Category := fst e.
Definition entry_z (e : GeoBufferEntry) : Z := snd e.

Definition geo_entries (geo_dict : dict Category Z) : list GeoBufferEntry :=
  map (fun '((x, y), z) => (x, y, z)) (items geo_dict).

Definition generate_geobuffer_list (conv_map : ConvMap)
  (max_counts : dict Z Z) : list GeoBufferEntry :=
  sort_by entry_x (geo_entries (fold_counts conv_map max_counts)).

(** ** The preset list *)

Definition PRESET_GEOBUFFER0 : list GeoBufferEntry :=
  [ (0,0,100); (1,0,20); (2,0,15); (3,0,12); (4,0,5); (5,0,10); (6,0,80);
    (7,0,15); (8,0,10); (9,0,15);
    (10,0,45); (11,0,30); (12,0,90); (13,0,70); (14,0,120); (30,4,10);
    (44,4,20); (62,4,5); (64,4,10);
    (70,2,10); (71,2,2); (72,2,10); (73,2,15); (77,5,40); (78,5,50);
    (80,9,60); (81,9,60);
    (82,9,45); (83,9,45); (84,9,20); (85,9,20); (86,9,60); (87,9,40);
    (88,9,10); (89,9,40); (90,9,40);
    (91,9,40); (92,9,40); (93,9,40); (94,9,40); (95,9,40); (96,9,40);
    (97,9,40); (98,9,40);
    (99,9,40); (100,9,40); (101,8,650); (103,10,1); (104,10,2); (105,6,1);
    (107,10,1);
    (108,6,1); (109,6,1); (112,1,60); (114,10,50); (217,6,10); (218,6,3);
    (233,9,40); (364,10,1) ].

(** ** Strings *)

Local Open Scope string_scope.

(** White space as [str.strip()] sees it, within ASCII: tab, line feed,
    vertical tab, form feed, carriage return, the four separators 28..31
    and the space. *)
Definition is_space (c : ascii) : bool :=
  let n := nat_of_ascii c in
  ((9 <=? n) && (n <=? 13) || (28 <=? n) && (n <=? 32))%nat.

Fixpoint drop_while {A : Type} (p : A -> bool) (l : list A) : list A :=
  match l with
  | [] => []
  | a :: l' => if p a then drop_while p l' else l
  end.

Definition drop_while_end {A : Type} (p : A -> bool) (l : list A) : list A :=
  rev (drop_while p (rev l)).

(** [s.strip()] *)
Definition strip (s : string) : string :=
  string_of_list_ascii
    (drop_while_end is_space (drop_while is_space (list_ascii_of_string s))).

(** [s.rstrip(',')] *)
Definition rstrip_commas (s : string) : string :=
  string_of_list_ascii
    (drop_while_end (Ascii.eqb ",") (list_ascii_of_string s)).

Definition lower_ascii (c : ascii) : ascii :=
  let n := nat_of_ascii c in
  if ((65 <=? n) && (n <=? 90))%nat then ascii_of_nat (n + 32) else c.

(** [s.lower()] *)
Fixpoint lower (s : string) : string :=
  match s with
  | EmptyString => EmptyString
  | String c s' => String (lower_ascii c) (lower s')
  end.

(** [s.startswith(p)] *)
Definition startswith (s p : string) : bool := String.prefix p s.

(** ["," in s] *)
Fixpoint contains_comma (s : string) : bool :=
  match s with
  | EmptyString => false
  | String c s' => Ascii.eqb c "," || contains_comma s'
  end.

(** [s.split(',')] *)
Fixpoint split_commas (s : string) : list string :=
  match s with
  | EmptyString => [EmptyString]
  | String c s' =>
      if Ascii.eqb c "," then EmptyString :: split_commas s'
      else match split_commas s' with
           | [] => [String c EmptyString]
           | t :: ts => String c t :: ts
           end
  end.

Definition nonempty (s : string) : bool :=
  match s with
  | EmptyString => false
  | String _ _ => true
  end.

Definition digit_val (c : ascii) : option Z :=
  let n := nat_of_ascii c in
  if ((48 <=? n) && (n <=? 57))%nat then Some (Z.of_nat (n - 48)) else None.

(** White space as [int()] sees it around the literal: the six characters
    of C's [isspace].  The separators 28..31, which [str.strip()] removes,
    are not among them: [int] refuses a string that holds one. *)
Definition is_int_space (c : ascii) : bool :=
  let n := nat_of_ascii c in
  ((9 <=? n) && (n <=? 13) || Nat.eqb n 32)%nat.

Definition int_strip (s : string) : list ascii :=
  drop_while_end is_int_space
    (drop_while is_int_space (list_ascii_of_string s)).

Definition digit_char (c : ascii) : bool :=
  match digit_val c with
  | Some _ => true
  | None => false
  end.

(** The digits of a decimal literal: at least one digit, and an underscore
    only between two digits. *)
Fixpoint int_digits (acc : Z) (after_digit : bool) (l : list ascii)
  : option Z :=
  match l with
  | [] => if after_digit then Some acc else None
  | c :: l' =>
      match digit_val c with
      | Some d => int_digits (10 * acc + d) true l'
      | None =>
          if Ascii.eqb c "_" && after_digit then int_digits acc false l'
          else None
      end
  end.

(** CPython refuses, with a [ValueError], a decimal literal of more than
    4300 digits (underscores are not counted). *)
Definition int_max_str_digits : Z := 4300.

Definition within_digit_limit (l : list ascii) : bool :=
  Z.leb (Z.of_nat (List.length (filter digit_char l))) int_max_str_digits.

Definition int_literal (l : list ascii) : option Z :=
  match int_digits 0 false l with
  | Some v => if within_digit_limit l then Some v else None
  | None => None
  end.

(** [int(s)]; [None] stands for [ValueError]. *)
Definition py_int (s : string) : option Z :=
  match int_strip s with
  | [] => None
  | c :: l =>
      if Ascii.eqb c "-" then option_map Z.opp (int_literal l)
      else if Ascii.eqb c "+" then int_literal l
      else int_literal (c :: l)
  end.

(** [[int(val) for val in parts]] inside [try ... except ValueError] *)
Fixpoint int_all (parts : list string) : option (list Z) :=
  match parts with
  | [] => Some []
  | p :: ps =>
      match py_int p with
      | None => None
      | Some z =>
          match int_all ps with
          | None => None
          | Some zs => Some (z :: zs)
          end
      end
  end.

(** ** [parse_level_file] *)

Record ParserState : Type := mkParserState {
  data_started : bool;
  level_rows : list (list Z)
}.

(** [[p for p in stripped.rstrip(',').split(',') if p != '']] *)
Definition line_parts (stripped : string) : list string :=
  filter nonempty (split_commas (rstrip_commas stripped)).

(** One turn of the loop over the lines. *)
Definition parse_line (st : ParserState) (line : string) : ParserState :=
  let stripped := strip line in
  if negb (nonempty stripped) then st
  else if startswith (lower stripped) "data=" then
    mkParserState true (level_rows st)
  else if data_started st || contains_comma stripped then
    let parts := line_parts stripped in
    if negb (Nat.eqb (List.length parts) 5) then st
    else match int_all parts with
         | None => st
         | Some row => mkParserState (data_started st) (level_rows st ++ [row])
         end
  else st.

Definition parse_lines (lines : list string) : list (list Z) :=
  level_rows (fold_left parse_line lines (mkParserState false [])).

(** Why a file cannot be read: [open] fails, or the file opens and
    [readlines()] meets bytes that are not UTF-8. *)
Inductive ReadError : Type :=
| CannotOpen
| NotDecodable.

Definition read_exn (e : ReadError) : exn :=
  match e with
  | CannotOpen => OSError
  | NotDecodable => UnicodeDecodeError
  end.

(** The files of the machine.
    - [fs_readlines]: what [open] and [readlines()] give for a path,
      [None] when they fail; [fs_read_error] says how they fail then.
    - [fs_writable]: whether writing to a path goes through to the end;
      when it does not, [fs_write_fault] says how: [None], the file cannot
      be opened and stays as it was; [Some n], the file is opened, which
      empties it, and the failure comes when [n] characters of the text
      have reached it. *)
Record FileSystem : Type := mkFileSystem {
  fs_readlines : string -> option (list string);
  fs_read_error : string -> ReadError;
  fs_writable : string -> bool;
  fs_write_fault : string -> option nat
}.

Definition parse_level_file (fs : FileSystem) (filepath : string)
  : pyres (list (list Z)) :=
  match fs_readlines fs filepath with
  | None => Raise (read_exn (fs_read_error fs filepath))
  | Some lines => Ok (parse_lines lines)
  end.

(** ** [write_output] and [run_processing] *)

(** [str(z)], the decimal writing of an integer.  The integers that a run
    writes are those of the preset, categories, which [json.load] has
    read, and counts of cells: they are within the 4300 digits up to which
    [str] writes an integer. *)
Definition str_of_int (z : Z) : string :=
  NilZero.string_of_int (Z.to_int z).

Definition newline : string := String (ascii_of_nat 10) EmptyString.

(** [f"{x},{y},{z}\n"] *)
Definition format_entry (e : GeoBufferEntry) : string :=
  let '(x, y, z) := e in
  str_of_int x ++ "," ++ str_of_int y ++ "," ++ str_of_int z ++ newline.

(** What the user is shown. *)
Inductive Message : Type :=
| WarnSelectInput
| WarnSelectOutput
| ErrChunkSizeNotInteger
| ErrNoValidLevelData
| NoMatchingIdsInfo
| ErrWritingOutput
| SuccessInfo (path : string).

(** What a run does to the outside: a message, a file written to its
    end, a file left with the beginning of the text only. *)
Inductive Event : Type :=
| MessageBox (m : Message)
| FileWritten (path : string) (content : list string)
| FilePartial (path : string) (text : string).

(** A write that fails: the exception is caught and the error is shown;
    when the file had been opened it is left with what had reached it. *)
Definition write_failure_events (fs : FileSystem) (filepath : string)
  (lines : list string) : list Event :=
  match fs_write_fault fs filepath with
  | None => [MessageBox ErrWritingOutput]
  | Some n =>
      [FilePartial filepath (substring 0 n (String.concat "" lines));
       MessageBox ErrWritingOutput]
  end.

(** [write_output] gives its events and its result. *)
Definition write_output (fs : FileSystem) (filepath : string)
  (geobuffer_list : list GeoBufferEntry) : list Event * bool :=
  if fs_writable fs filepath
  then ([FileWritten filepath (map format_entry geobuffer_list)], true)
  else (write_failure_events fs filepath (map format_entry geobuffer_list),
        false).

(** The variables of the window that [run_processing] reads. *)
Record Gui : Type := mkGui {
  input_file_var : string;
  output_file_var : string;
  chunk_size_var : string;
  add_geobuffer0_var : bool
}.

Definition inject_preset (enabled : bool) (geobuffer_list : list GeoBufferEntry)
  : list GeoBufferEntry :=
  if enabled then PRESET_GEOBUFFER0 ++ geobuffer_list else geobuffer_list.

(** The end of [run_processing], from the emptiness test on. *)
Definition report (fs : FileSystem) (output_filepath : string)
  (geobuffer_list : list GeoBufferEntry) : list Event :=
  match geobuffer_list with
  | [] => [MessageBox NoMatchingIdsInfo]
  | _ :: _ =>
      let '(events, ok) := write_output fs output_filepath geobuffer_list in
      if ok then events ++ [MessageBox (SuccessInfo output_filepath)] else events
  end.

Definition run_processing (fs : FileSystem) (conversion_map : ConvMap)
  (gui : Gui) : pyres (list Event) :=
  let input_filepath := input_file_var gui in
  let output_filepath := output_file_var gui in
  if negb (nonempty input_filepath) then Ok [MessageBox WarnSelectInput]
  else if negb (nonempty output_filepath) then Ok [MessageBox WarnSelectOutput]
  else
    match py_int (chunk_size_var gui) with
    | None => Ok [MessageBox ErrChunkSizeNotInteger]
    | Some chunk_size =>
        level_rows <- parse_level_file fs input_filepath ;;
        match level_rows with
        | [] => Ok [MessageBox ErrNoValidLevelData]
        | _ :: _ =>
            max_counts <- analyze_chunks level_rows chunk_size conversion_map ;;
            let geobuffer_list :=
              generate_geobuffer_list conversion_map max_counts in
            let geobuffer_list :=
              inject_preset (add_geobuffer0_var gui) geobuffer_list in
            Ok (report fs output_filepath geobuffer_list)
        end
    end.

(** ** The configuration: conversion map and roller mappings *)

(** One group of [conversion_map.json]: its ids and its category. *)
Definition MapGroup : Type := (list Z * Category)%type.

Definition load_conversion_map (data : list MapGroup) : ConvMap :=
  fold_left
    (fun conversion_map (entry : MapGroup) =>
       fold_left (fun m id_val => set Z.eq_dec id_val (snd entry) m)
         (fst entry) conversion_map)
    data [].

Definition ROLLER_IDS : list Z := [41; 42; 43; 44; 579; 580; 587; 588].

(** A JSON document as [json.load] gives it.  Of a float only what the
    loader can tell is kept: whether it is zero. *)
#[local] Unset Elimination Schemes.
Inductive json : Type :=
| JNull
| JBool (b : bool)
| JInt (z : Z)
| JFloat (nonzero : bool)
| JStr (s : string)
| JList (items : list json)
| JObj (fields : list (string * json)).
#[local] Set Elimination Schemes.

(** The truth value of a document: [if rm_data:], [not name]. *)
Definition truthy (v : json) : bool :=
  match v with
  | JNull => false
  | JBool b => b
  | JInt z => negb (Z.eqb z 0)
  | JFloat nonzero => nonzero
  | JStr s => nonempty s
  | JList [] => false
  | JList (_ :: _) => true
  | JObj [] => false
  | JObj (_ :: _) => true
  end.

(** [for entry in v]: the items of a list, the keys of an object, the
    characters of a string; anything else is not iterable. *)
Definition json_iter (v : json) : pyres (list json) :=
  match v with
  | JList items => Ok items
  | JObj fields => Ok (map (fun kv => JStr (fst kv)) fields)
  | JStr s =>
      Ok (map (fun c => JStr (String c EmptyString)) (list_ascii_of_string s))
  | _ => Raise TypeError
  end.

(** [entry.get(key)], a method that only an object has. *)
Definition json_get (entry : json) (key : string) : pyres (option json) :=
  match entry with
  | JObj fields => Ok (get string_dec fields key)
  | _ => Raise AttributeError
  end.

(** [name.strip()], a method that only a string has. *)
Definition json_strip (name : json) : pyres string :=
  match name with
  | JStr s => Ok (strip s)
  | _ => Raise AttributeError
  end.

(** The loop over the two file names: the first file that opens and parses
    gives [rm_data]; a file that does not leaves [None]. *)
Fixpoint load_rm_data (files : list (option json)) : option json :=
  match files with
  | [] => None
  | Some d :: _ => Some d
  | None :: rest => load_rm_data rest
  end.

(** [to[i]] *)
Definition nth_item (to : list json) (i : nat) : pyres json :=
  match nth_error to i with
  | Some v => Ok v
  | None => Raise IndexError
  end.

(** A category as the roller file gives it: two JSON values. *)
Definition RawCategory : Type := (json * json)%type.

(** The body of the loop over the entries.  The right-hand side
    [(to[0], to[1])] is evaluated before [name.strip()]. *)
Definition add_roller_entry (roller_mappings : dict string RawCategory)
  (entry : json) : pyres (dict string RawCategory) :=
  name <- json_get entry "name" ;;
  to <- json_get entry "to" ;;
  match name, to with
  | Some n, Some (JList items) =>
      if negb (truthy n) then Ok roller_mappings
      else
        a <- nth_item items 0 ;;
        b <- nth_item items 1 ;;
        key <- json_strip n ;;
        Ok (set string_dec key (a, b) roller_mappings)
  | _, _ => Ok roller_mappings
  end.

Definition load_roller_mappings (rm_data : option json)
  : pyres (dict string RawCategory) :=
  match rm_data with
  | None => Ok []
  | Some doc =>
      if truthy doc
      then entries <- json_iter doc ;; for_each entries add_roller_entry []
      else Ok []
  end.

(** The rest of the program is followed for categories that are pairs of
    integers, as the data model has them: the table of roller mappings
    with its categories read as such pairs, when they all are. *)
Definition int_category (c : RawCategory) : option Category :=
  match c with
  | (JInt a, JInt b) => Some (a, b)
  | _ => None
  end.

Fixpoint int_categories (raw : dict string RawCategory)
  : option (dict string Category) :=
  match raw with
  | [] => Some []
  | (name, c) :: rest =>
      match int_category c, int_categories rest with
      | Some c', Some rest' => Some ((name, c') :: rest')
      | _, _ => None
      end
  end.

Definition typed_roller_mappings (rm_data : option json)
  : pyres (option (dict string Category)) :=
  raw <- load_roller_mappings rm_data ;; Ok (int_categories raw).

(** [roller_mappings.get(selection, roller_mappings.get("Default", (24, 4)))] *)
Definition roller_category (roller_mappings : dict string Category)
  (selection : string) : Category :=
  get_default string_dec roller_mappings selection
    (get_default string_dec roller_mappings "Default" (24, 4)%Z).

Definition set_all (ids : list Z) (mapping : Category) (m : ConvMap)
  : ConvMap :=
  fold_left (fun m id_val => set Z.eq_dec id_val mapping m) ids m.

Definition apply_roller_mapping (roller_mappings : dict string Category)
  (selection : string) (conversion_map : ConvMap) : ConvMap :=
  let mapping := roller_category roller_mappings selection in
  set_all ROLLER_IDS mapping conversion_map.

(** The conversion map as the module leaves it: loaded, then
    [apply_roller_mapping("Default")]. *)
Definition startup_conversion_map (data : list MapGroup)
  (roller_mappings : dict string Category) : ConvMap :=
  apply_roller_mapping roller_mappings "Default" (load_conversion_map data).


Local Close Scope string_scope.

(** ** The specification's words, for comparison with the code *)

(** The number of occurrences of [id] in a list of cells, and among the
    cells of a block of rows. *)
Definition cnt (l : list Z) (id : Z) : Z :=
  Z.of_nat (count_occ Z.eq_dec l id).

Definition occurrences (id : Z) (block : list (list Z)) : Z :=
  cnt (concat block) id.

(** The contiguous block of [W] rows that starts at position [s]. *)
Definition spec_block (rows : list (list Z)) (s W : Z) : list (list Z) :=
  firstn (Z.to_nat W) (skipn (Z.to_nat s) rows).

(** The start positions [0 .. L - W]; there is none when [L < W]. *)
Definition spec_starts (L W : Z) : list Z :=
  map Z.of_nat (seq 0 (Z.to_nat (L - W + 1))).

Definition max_list (l : list Z) : Z := fold_right Z.max 0 l.

(** The maximum, over all windows, of the occurrences of [id]. *)
Definition spec_max_count (rows : list (list Z)) (W : Z) (id : Z) : Z :=
  max_list
    (map (fun s => occurrences id (spec_block rows s W))
       (spec_starts (Z.of_nat (List.length rows)) W)).

Definition cat_eqb (a b : Category) : bool :=
  if cat_eq_dec a b then true else false.

(** The ids of the mapping table that map to category [c]. *)
Definition ids_of_category (conv : ConvMap) (c : Category) : list Z :=
  map fst (filter (fun kv => cat_eqb (snd kv) c) conv).

Definition sum_list (l : list Z) : Z := fold_right Z.add 0 l.

(** The sum of the max counts of the ids that map to [c]. *)
Definition category_total (conv : ConvMap) (max_counts : dict Z Z)
  (c : Category) : Z :=
  sum_list (map (fun id => get_default Z.eq_dec max_counts id 0)
              (ids_of_category conv c)).

(** The same sum when only the counts above zero are added, which is what
    the total is for a table that has a negative value. *)
Definition category_sum (conv : ConvMap) (max_counts : dict Z Z)
  (c : Category) : Z :=
  sum_list (map (fun id => Z.max 0 (get_default Z.eq_dec max_counts id 0))
              (ids_of_category conv c)).

(** The categories in the order in which the fold first touches them: the
    categories of the ids with a count above zero, in the order of the
    mapping table, each kept at its first occurrence. *)
Definition touch (seen : list Category) (c : Category) : list Category :=
  if in_dec cat_eq_dec c seen then seen else seen ++ [c].

Definition counted (max_counts : dict Z Z) (kv : Z * Category) : bool :=
  get_default Z.eq_dec max_counts (fst kv) 0 >? 0.

Definition first_touch_order (conv : ConvMap) (max_counts : dict Z Z)
  : list Category :=
  fold_left touch (map snd (filter (counted max_counts) conv)) [].

Definition same_x (k : Z) (e : GeoBufferEntry) : bool := entry_x e =? k.

Definition le_x (a b : GeoBufferEntry) : Prop := entry_x a <= entry_x b.

Definition is_roller (id : Z) : bool :=
  if in_dec Z.eq_dec id ROLLER_IDS then true else false.

(** A roller entry that the loader skips: an object without a name that
    counts as true, or without a list [to]. *)
Definition has_name (fields : list (string * json)) : bool :=
  match get string_dec fields "name"%string with
  | Some n => truthy n
  | None => false
  end.

Definition has_list_to (fields : list (string * json)) : bool :=
  match get string_dec fields "to"%string with
  | Some (JList _) => true
  | _ => false
  end.

Definition unusable (e : json) : bool :=
  match e with
  | JObj fields => negb (has_name fields && has_list_to fields)
  | _ => false
  end.

(** A roller configuration without a usable entry: no file that reads and
    parses, a document that counts as false (null, an empty list, ...), or
    a list of entries that are all skipped. *)
Definition no_usable_entry (rm_data : option json) : Prop :=
  rm_data = None \/
  (exists doc, rm_data = Some doc /\ truthy doc = false) \/
  (exists entries,
      rm_data = Some (JList entries) /\ forallb unusable entries = true).

(** The category an override selects: the entry of the selection, else the
    entry of "Default", else (24, 4). *)
Definition selected_category (roller_mappings : dict string Category)
  (selection : string) : Category :=
  match get string_dec roller_mappings selection with
  | Some c => c
  | None =>
      match get string_dec roller_mappings "Default"%string with
      | Some c => c
      | None => (24, 4)%Z
      end
  end.









(** ** A small machine for the examples *)

Definition example_fs (lines : list string) : FileSystem :=
  mkFileSystem (fun _ => Some lines) (fun _ => CannotOpen) (fun _ => true)
    (fun _ => None).

Definition example_gui (chunk_size : string) (preset : bool) : Gui :=
  mkGui "level.txt"%string "out.txt"%string chunk_size preset.

(** The ways a run can go. *)
Inductive RunCase (fs : FileSystem) (conv : ConvMap) (gui : Gui)
  : pyres (list Event) -> Prop :=
| run_no_input :
    nonempty (input_file_var gui) = false ->
    RunCase fs conv gui (Ok [MessageBox WarnSelectInput])
| run_no_output :
    nonempty (input_file_var gui) = true ->
    nonempty (output_file_var gui) = false ->
    RunCase fs conv gui (Ok [MessageBox WarnSelectOutput])
| run_not_integer :
    nonempty (input_file_var gui) = true ->
    nonempty (output_file_var gui) = true ->
    py_int (chunk_size_var gui) = None ->
    RunCase fs conv gui (Ok [MessageBox ErrChunkSizeNotInteger])
| run_cannot_open W :
    nonempty (input_file_var gui) = true ->
    nonempty (output_file_var gui) = true ->
    py_int (chunk_size_var gui) = Some W ->
    fs_readlines fs (input_file_var gui) = None ->
    RunCase fs conv gui
      (Raise (read_exn (fs_read_error fs (input_file_var gui))))
| run_no_rows W lines :
    nonempty (input_file_var gui) = true ->
    nonempty (output_file_var gui) = true ->
    py_int (chunk_size_var gui) = Some W ->
    fs_readlines fs (input_file_var gui) = Some lines ->
    parse_lines lines = [] ->
    RunCase fs conv gui (Ok [MessageBox ErrNoValidLevelData])
| run_analysis W lines table :
    nonempty (input_file_var gui) = true ->
    nonempty (output_file_var gui) = true ->
    py_int (chunk_size_var gui) = Some W ->
    fs_readlines fs (input_file_var gui) = Some lines ->
    parse_lines lines <> [] ->
    analyze_chunks (parse_lines lines) W conv = Ok table ->
    RunCase fs conv gui
      (Ok (report fs (output_file_var gui)
             (inject_preset (add_geobuffer0_var gui)
                (generate_geobuffer_list conv table)))).


(** ** Measures used in the further properties *)

(** The sum of the counts of a list of entries. *)
Definition total_z (l : list GeoBufferEntry) : Z :=
  sum_list (map entry_z l).

(** The sum, over the ids of the mapping table, of the max counts that are
    above zero. *)
Definition counted_total (conv : ConvMap) (max_counts : dict Z Z) : Z :=
  sum_list
    (map (fun kv => Z.max 0 (get_default Z.eq_dec max_counts (fst kv) 0)) conv).

(** The rows that one line gives, read off its tokens alone: the row of
    its integers when it has five tokens that are all integers. *)
Definition line_rows (line : string) : list (list Z) :=
  let parts := line_parts (strip line) in
  if Nat.eqb (List.length parts) 5
  then match int_all parts with
       | Some row => [row]
       | None => []
       end
  else [].

(** The value of a decimal numeral read from the left with an accumulator,
    as [int_digits] reads it. *)
Fixpoint uint_value (acc : Z) (d : Decimal.uint) : Z :=
  match d with
  | Decimal.Nil => acc
  | Decimal.D0 d' => uint_value (10 * acc + 0) d'
  | Decimal.D1 d' => uint_value (10 * acc + 1) d'
  | Decimal.D2 d' => uint_value (10 * acc + 2) d'
  | Decimal.D3 d' => uint_value (10 * acc + 3) d'
  | Decimal.D4 d' => uint_value (10 * acc + 4) d'
  | Decimal.D5 d' => uint_value (10 * acc + 5) d'
  | Decimal.D6 d' => uint_value (10 * acc + 6) d'
  | Decimal.D7 d' => uint_value (10 * acc + 7) d'
  | Decimal.D8 d' => uint_value (10 * acc + 8) d'
  | Decimal.D9 d' => uint_value (10 * acc + 9) d'
  end.

(** Whether the decimal writing of [z] has at most 4300 digits, so that
    [int] reads it. *)
Definition written_within_limit (z : Z) : bool :=
  within_digit_limit (list_ascii_of_string (str_of_int z)).

(** Strings joined by commas, and a data line written from a row of
    integers in decimal, with or without a comma at its end. *)
Fixpoint join_commas (l : list string) : string :=
  match l with
  | [] => EmptyString
  | [s] => s
  | s :: rest => (s ++ String "," (join_commas rest))%string
  end.

Definition decimal_line (row : list Z) (trailing_comma : bool) : string :=
  (join_commas (map str_of_int row)
   ++ (if trailing_comma then String "," EmptyString else EmptyString)
   ++ newline)%string.

(** A character that is neither white space nor a comma, as the digits
    and the sign of a written integer are. *)
Definition plain_char (c : ascii) : bool :=
  negb (is_space c) && negb (Ascii.eqb c ",").

(** The category of the last group of the configuration that lists [id]. *)
Definition last_group_category (data : list MapGroup) (id : Z)
  : option Category :=
  fold_left
    (fun acc (entry : MapGroup) =>
       if in_dec Z.eq_dec id (fst entry) then Some (snd entry) else acc)
    data None.

(** What goes wrong at one entry of the roller file, if anything: an
    entry that is no object has no [get]; an entry that is taken up (a
    name that counts as true, a list [to]) fails on a [to] of fewer than
    two items and, after that, on a name that is no string. *)
Definition entry_fault (e : json) : option exn :=
  match e with
  | JObj fields =>
      match get string_dec fields "name"%string,
            get string_dec fields "to"%string with
      | Some n, Some (JList items) =>
          if truthy n
          then if (List.length items <? 2)%nat then Some IndexError
               else match n with
                    | JStr _ => None
                    | _ => Some AttributeError
                    end
          else None
      | _, _ => None
      end
  | _ => Some AttributeError
  end.

Fixpoint first_fault (entries : list json) : option exn :=
  match entries with
  | [] => None
  | e :: rest =>
      match entry_fault e with
      | Some x => Some x
      | None => first_fault rest
      end
  end.

(** What goes wrong with a roller document: a number or [true] is not
    iterable; an object or a string is gone through key by key or
    character by character, and these are no objects; a list fails at its
    first entry that does. *)
Definition doc_fault (doc : json) : option exn :=
  match doc with
  | JNull => None
  | JBool b => if b then Some TypeError else None
  | JInt z => if Z.eqb z 0 then None else Some TypeError
  | JFloat nonzero => if nonzero then Some TypeError else None
  | JStr s => if nonempty s then Some AttributeError else None
  | JObj [] => None
  | JObj (_ :: _) => Some AttributeError
  | JList entries => first_fault entries
  end.

(** What a roller entry says about [name]: its category, when the entry is
    taken up and its name, stripped, is [name]. *)
Definition entry_category (name : string) (e : json) : option RawCategory :=
  match e with
  | JObj fields =>
      match get string_dec fields "name"%string,
            get string_dec fields "to"%string with
      | Some (JStr n), Some (JList (a :: b :: _)) =>
          if nonempty n && String.eqb (strip n) name then Some (a, b)
          else None
      | _, _ => None
      end
  | _ => None
  end.


(** * Properties *)

(** ** Dictionaries *)

Section DictFacts.
Context {K V : Type}.
Variable K_eq_dec : forall a b : K, {a = b} + {a <> b}.

Local Abbreviation get := (get K_eq_dec).
Local Abbreviation set := (set K_eq_dec).

Lemma get_set_same (d : dict K V) k v : get (set k v d) k = Some v.
Proof.
  induction d as [|[k' v'] d IH]; simpl.
  - destruct (K_eq_dec k k); congruence.
  - destruct (K_eq_dec k k') as [->|Hne]; simpl.
    + destruct (K_eq_dec k' k'); congruence.
    + destruct (K_eq_dec k k'); [contradiction | exact IH].
Qed.

Lemma get_set_other (d : dict K V) k v k' :
  k <> k' -> get (set k v d) k' = get d k'.
Proof.
  intros Hne. induction d as [|[k0 v0] d IH]; simpl.
  - destruct (K_eq_dec k' k); congruence.
  - destruct (K_eq_dec k k0) as [->|Hne0]; simpl.
    + destruct (K_eq_dec k' k0); congruence.
    + destruct (K_eq_dec k' k0); [reflexivity | exact IH].
Qed.

Lemma get_None_iff (d : dict K V) k : get d k = None <-> ~ In k (keys d).
Proof.
  induction d as [|[k' v'] d IH]; simpl.
  - tauto.
  - destruct (K_eq_dec k k') as [->|Hne].
    + split; [discriminate | tauto].
    + rewrite IH. split; [intros H [E|E]; congruence | tauto].
Qed.

Lemma get_Some_keys (d : dict K V) k v : get d k = Some v -> In k (keys d).
Proof.
  intros H. destruct (in_dec K_eq_dec k (keys d)) as [Hin|Hout]; auto.
  apply get_None_iff in Hout. congruence.
Qed.

Lemma keys_get_Some (d : dict K V) k : In k (keys d) -> exists v, get d k = Some v.
Proof.
  intros Hin. destruct (get d k) as [v|] eqn:E; eauto.
  apply get_None_iff in E. contradiction.
Qed.

Lemma get_Some_In (d : dict K V) k v : get d k = Some v -> In (k, v) d.
Proof.
  induction d as [|[k' v'] d IH]; simpl; [discriminate|].
  destruct (K_eq_dec k k') as [->|Hne]; intros H.
  - left. congruence.
  - right. auto.
Qed.

Lemma In_get_Some (d : dict K V) k v :
  NoDup (keys d) -> In (k, v) d -> get d k = Some v.
Proof.
  induction d as [|[k' v'] d IH]; simpl; [tauto|].
  intros Hnd [E|Hin]; inversion Hnd as [|? ? Hout Hnd']; subst.
  - inversion E; subst. destruct (K_eq_dec k k); congruence.
  - destruct (K_eq_dec k k') as [->|Hne]; auto.
    exfalso. apply Hout. change (In (fst (k', v)) (map fst d)).
    apply in_map. exact Hin.
Qed.

Lemma keys_set_present (d : dict K V) k v :
  In k (keys d) -> keys (set k v d) = keys d.
Proof.
  induction d as [|[k' v'] d IH]; simpl; [tauto|].
  intros Hin. destruct (K_eq_dec k k') as [->|Hne]; simpl; [reflexivity|].
  f_equal. apply IH. destruct Hin; congruence.
Qed.

Lemma keys_set_absent (d : dict K V) k v :
  ~ In k (keys d) -> keys (set k v d) = keys d ++ [k].
Proof.
  induction d as [|[k' v'] d IH]; simpl; [reflexivity|].
  intros Hout. destruct (K_eq_dec k k') as [->|Hne]; simpl; [tauto|].
  f_equal. apply IH. tauto.
Qed.

Lemma in_keys_set (d : dict K V) k v k' :
  In k' (keys (set k v d)) <-> k' = k \/ In k' (keys d).
Proof.
  destruct (in_dec K_eq_dec k (keys d)) as [Hin|Hout].
  - rewrite keys_set_present by assumption.
    split; [tauto | intros [->|H]; assumption].
  - rewrite keys_set_absent by assumption. rewrite in_app_iff. simpl.
    split; [intros [H|[H|[]]]; auto | intros [->|H]; auto].
Qed.

Lemma NoDup_keys_set (d : dict K V) k v :
  NoDup (keys d) -> NoDup (keys (set k v d)).
Proof.
  intros Hnd. destruct (in_dec K_eq_dec k (keys d)) as [Hin|Hout].
  - rewrite keys_set_present; assumption.
  - rewrite keys_set_absent by assumption.
    apply NoDup_rev in Hnd. rewrite <- (rev_involutive (keys d ++ [k])).
    apply NoDup_rev. rewrite rev_app_distr. simpl. constructor; auto.
    rewrite <- in_rev. exact Hout.
Qed.

Lemma set_same_value (d : dict K V) k v : get d k = Some v -> set k v d = d.
Proof.
  induction d as [|[k' v'] d IH]; simpl; [discriminate|].
  destruct (K_eq_dec k k') as [->|Hne]; intros H.
  - congruence.
  - f_equal. auto.
Qed.
End DictFacts.

(** ** The window analyzer *)

Lemma cnt_nonneg l id : 0 <= cnt l id.
Proof. unfold cnt. lia. Qed.

Lemma cnt_cons_same l id : cnt (id :: l) id = cnt l id + 1.
Proof. unfold cnt. rewrite count_occ_cons_eq by reflexivity. lia. Qed.

Lemma cnt_cons_other l a id : a <> id -> cnt (a :: l) id = cnt l id.
Proof. intros H. unfold cnt. rewrite count_occ_cons_neq by exact H. reflexivity. Qed.

Lemma get_default_set_same (d : dict Z Z) k v :
  get_default Z.eq_dec (set Z.eq_dec k v d) k 0 = v.
Proof. unfold get_default. rewrite get_set_same. reflexivity. Qed.

Lemma get_default_set_other (d : dict Z Z) k v k' :
  k <> k' ->
  get_default Z.eq_dec (set Z.eq_dec k v d) k' 0 = get_default Z.eq_dec d k' 0.
Proof. intros H. unfold get_default. rewrite get_set_other by exact H. reflexivity. Qed.

(** The frequency table after some more cells have been counted. *)
Lemma count_items_get conv l : forall freq id,
  get Z.eq_dec (fold_left (count_item conv) l freq) id =
  if mem Z.eq_dec id conv && (0 <? cnt l id)
  then Some (get_default Z.eq_dec freq id 0 + cnt l id)
  else get Z.eq_dec freq id.
Proof.
  induction l as [|a l IH]; intros freq id; simpl.
  - rewrite andb_false_r. reflexivity.
  - rewrite IH. unfold count_item.
    destruct (Z.eq_dec a id) as [->|Hne].
    + rewrite cnt_cons_same. pose proof (cnt_nonneg l id) as Hc.
      destruct (mem Z.eq_dec id conv) eqn:Hm; simpl.
      * rewrite get_default_set_same, get_set_same.
        replace (0 <? cnt l id + 1) with true by (symmetry; apply Z.ltb_lt; lia).
        destruct (0 <? cnt l id) eqn:E; f_equal; [lia|].
        apply Z.ltb_ge in E. lia.
      * reflexivity.
    + rewrite (cnt_cons_other l a id Hne).
      destruct (mem Z.eq_dec a conv).
      * rewrite get_default_set_other, get_set_other by exact Hne. reflexivity.
      * reflexivity.
Qed.

Lemma count_items_NoDup conv l : forall freq,
  NoDup (keys freq) -> NoDup (keys (fold_left (count_item conv) l freq)).
Proof.
  induction l as [|a l IH]; intros freq Hnd; simpl; auto.
  apply IH. unfold count_item. destruct (mem Z.eq_dec a conv); auto.
  apply NoDup_keys_set. exact Hnd.
Qed.

Lemma count_rows_flat conv window : forall freq,
  fold_left (count_row conv) window freq =
  fold_left (count_item conv) (concat window) freq.
Proof.
  induction window as [|row window IH]; intros freq; simpl; auto.
  rewrite fold_left_app. apply IH.
Qed.

Lemma window_freq_get conv window id :
  get Z.eq_dec (window_freq conv window) id =
  if mem Z.eq_dec id conv && (0 <? occurrences id window)
  then Some (occurrences id window) else None.
Proof.
  unfold window_freq, occurrences. rewrite count_rows_flat, count_items_get.
  reflexivity.
Qed.

Lemma window_freq_NoDup conv window : NoDup (keys (window_freq conv window)).
Proof.
  unfold window_freq. rewrite count_rows_flat.
  apply count_items_NoDup. constructor.
Qed.

(** The loop over [freq.items()] never meets a missing key when every key
    of [freq] is a key of [max_counts], and raises each count to the
    maximum. *)
Lemma raise_max_loop : forall (freq mc : dict Z Z),
  NoDup (keys freq) ->
  (forall k, In k (keys freq) -> In k (keys mc)) ->
  exists mc',
    for_each (items freq) raise_max mc = Ok mc' /\
    keys mc' = keys mc /\
    forall id, get Z.eq_dec mc' id =
               match get Z.eq_dec freq id with
               | Some c => option_map (Z.max c) (get Z.eq_dec mc id)
               | None => get Z.eq_dec mc id
               end.
Proof.
  induction freq as [|[k c] freq IH]; intros mc Hnd Hsub.
  - exists mc. simpl. auto.
  - inversion Hnd as [|? ? Hout Hnd']; subst.
    assert (Hk : In k (keys mc)) by (apply Hsub; left; reflexivity).
    destruct (keys_get_Some Z.eq_dec mc k Hk) as [cur Hcur].
    set (mc1 := if c >? cur then set Z.eq_dec k c mc else mc).
    assert (Hkeys1 : keys mc1 = keys mc).
    { unfold mc1. destruct (c >? cur); auto. apply keys_set_present. exact Hk. }
    assert (Hget1 : forall id, get Z.eq_dec mc1 id =
                      if Z.eq_dec id k then Some (Z.max c cur)
                      else get Z.eq_dec mc id).
    { intros id. unfold mc1. destruct (Z.eq_dec id k) as [->|Hne].
      - destruct (c >? cur) eqn:E.
        + rewrite get_set_same. f_equal. apply Z.gtb_lt in E. lia.
        + rewrite Hcur. f_equal.
          assert (~ (c > cur)) by (rewrite Z.gtb_ltb in E; apply Z.ltb_ge in E; lia).
          lia.
      - destruct (c >? cur); auto. apply get_set_other. congruence. }
    destruct (IH mc1 Hnd') as [mc' [Hrun [Hkeys Hget]]].
    { intros k' Hk'. rewrite Hkeys1. apply Hsub. right. exact Hk'. }
    exists mc'. split; [|split].
    + simpl. unfold getitem. rewrite Hcur. simpl. exact Hrun.
    + congruence.
    + intros id. rewrite Hget, Hget1. simpl.
      destruct (Z.eq_dec id k) as [->|Hne].
      * apply (get_None_iff Z.eq_dec) in Hout. rewrite Hout, Hcur. reflexivity.
      * reflexivity.
Qed.

Lemma mem_true_iff (conv : ConvMap) id :
  mem Z.eq_dec id conv = true <-> In id (keys conv).
Proof.
  unfold mem. split.
  - destruct (get Z.eq_dec conv id) eqn:E; [|discriminate].
    intros _. eapply get_Some_keys; eauto.
  - intros Hin. destruct (keys_get_Some Z.eq_dec conv id Hin) as [v ->].
    reflexivity.
Qed.

(** One window: every mapped id goes to the maximum of its count so far
    and its occurrences in the window. *)
Lemma analyze_window_step rows W conv mc start :
  (forall id, In id (keys mc) <-> In id (keys conv)) ->
  (forall id v, get Z.eq_dec mc id = Some v -> 0 <= v) ->
  exists mc',
    analyze_window rows W conv mc start = Ok mc' /\
    keys mc' = keys mc /\
    forall id, get Z.eq_dec mc' id =
      option_map
        (fun v => Z.max v (occurrences id (py_slice rows start (start + W))))
        (get Z.eq_dec mc id).
Proof.
  intros Hkeys Hpos. unfold analyze_window.
  set (window := py_slice rows start (start + W)).
  destruct (raise_max_loop (window_freq conv window) mc) as [mc' [Hrun [Hk Hget]]].
  - apply window_freq_NoDup.
  - intros k Hin. apply Hkeys.
    destruct (keys_get_Some Z.eq_dec _ _ Hin) as [c Hc].
    rewrite window_freq_get in Hc.
    destruct (mem Z.eq_dec k conv) eqn:Hm; [|discriminate].
    apply mem_true_iff. exact Hm.
  - exists mc'. split; [exact Hrun|]. split; [exact Hk|].
    intros id. rewrite Hget, window_freq_get.
    destruct (get Z.eq_dec mc id) as [v|] eqn:Hv; simpl.
    + assert (Hm : mem Z.eq_dec id conv = true).
      { apply mem_true_iff, Hkeys. eapply get_Some_keys; eauto. }
      rewrite Hm. simpl.
      assert (0 <= occurrences id window) by apply cnt_nonneg.
      pose proof (Hpos id v Hv).
      destruct (0 <? occurrences id window) eqn:E; simpl; f_equal.
      * lia.
      * apply Z.ltb_ge in E. lia.
    + destruct (mem Z.eq_dec id conv && (0 <? occurrences id window)); reflexivity.
Qed.

(** The loop over the start positions. *)
Lemma analyze_loop rows W conv : forall starts mc,
  (forall id, In id (keys mc) <-> In id (keys conv)) ->
  (forall id v, get Z.eq_dec mc id = Some v -> 0 <= v) ->
  exists mc',
    for_each starts (analyze_window rows W conv) mc = Ok mc' /\
    keys mc' = keys mc /\
    forall id, get Z.eq_dec mc' id =
      option_map
        (fun v => fold_left Z.max
           (map (fun s => occurrences id (py_slice rows s (s + W))) starts) v)
        (get Z.eq_dec mc id).
Proof.
  induction starts as [|s starts IH]; intros mc Hkeys Hpos.
  - exists mc. simpl. repeat split; auto.
    intros id. destruct (get Z.eq_dec mc id); reflexivity.
  - destruct (analyze_window_step rows W conv mc s Hkeys Hpos)
      as [mc1 [Hrun1 [Hk1 Hget1]]].
    destruct (IH mc1) as [mc' [Hrun [Hk Hget]]].
    + intros id. rewrite Hk1. apply Hkeys.
    + intros id v. rewrite Hget1.
      destruct (get Z.eq_dec mc id) as [v0|] eqn:E; simpl; [|discriminate].
      intros H. inversion H; subst. pose proof (Hpos id v0 E). lia.
    + exists mc'. split; [|split].
      * simpl. rewrite Hrun1. simpl. exact Hrun.
      * congruence.
      * intros id. rewrite Hget, Hget1.
        destruct (get Z.eq_dec mc id); reflexivity.
Qed.

Lemma zero_counts_spec_gen (ks : list Z) : forall d : dict Z Z,
  NoDup (keys d) ->
  (forall id v, get Z.eq_dec d id = Some v -> v = 0) ->
  let d' := fold_left (fun d item_id => set Z.eq_dec item_id 0 d) ks d in
  NoDup (keys d') /\
  (forall id, In id (keys d') <-> In id ks \/ In id (keys d)) /\
  (forall id v, get Z.eq_dec d' id = Some v -> v = 0).
Proof.
  induction ks as [|k ks IH]; intros d Hnd Hz; simpl.
  - repeat split; auto; tauto.
  - destruct (IH (set Z.eq_dec k 0 d)) as [H1 [H2 H3]].
    + apply NoDup_keys_set. exact Hnd.
    + intros id v. destruct (Z.eq_dec k id) as [->|Hne].
      * rewrite get_set_same. congruence.
      * rewrite get_set_other by exact Hne. apply Hz.
    + split; [exact H1|]. split; [|exact H3].
      intros id. rewrite H2, in_keys_set. split.
      * intros [H|[->|H]]; auto.
      * intros [[->|H]|H]; auto.
Qed.

Lemma zero_counts_spec conv :
  NoDup (keys (zero_counts conv)) /\
  (forall id, In id (keys (zero_counts conv)) <-> In id (keys conv)) /\
  (forall id, In id (keys conv) -> get Z.eq_dec (zero_counts conv) id = Some 0).
Proof.
  destruct (zero_counts_spec_gen (keys conv) []) as [H1 [H2 H3]].
  - constructor.
  - simpl. discriminate.
  - split; [exact H1|]. split.
    + intros id. unfold zero_counts. rewrite H2. simpl. tauto.
    + intros id Hin.
      assert (Hk : In id (keys (zero_counts conv))).
      { unfold zero_counts. apply H2. left. exact Hin. }
      destruct (keys_get_Some Z.eq_dec _ _ Hk) as [v Hv].
      rewrite Hv. f_equal. eapply H3. exact Hv.
Qed.

(** For a start position and a window size that are not negative, the slice
    of the code is the block of the specification. *)
Lemma py_slice_block (rows : list (list Z)) s W :
  0 <= s -> 0 <= W -> py_slice rows s (s + W) = spec_block rows s W.
Proof.
  intros Hs HW. unfold py_slice, spec_block, slice_bound.
  replace (s <? 0) with false by (symmetry; apply Z.ltb_ge; lia).
  replace (s + W <? 0) with false by (symmetry; apply Z.ltb_ge; lia).
  set (len := Z.of_nat (List.length rows)).
  destruct (Z_le_gt_dec s len) as [Hle|Hgt].
  - rewrite (Z.min_l s len) by lia.
    assert (Hlen : List.length (skipn (Z.to_nat s) rows) = Z.to_nat (len - s)).
    { rewrite length_skipn. unfold len. lia. }
    destruct (Z_le_gt_dec (s + W) len) as [Hle2|Hgt2].
    + rewrite Z.min_l by lia. f_equal. lia.
    + rewrite Z.min_r by lia.
      rewrite !firstn_all2; auto; rewrite Hlen; lia.
  - rewrite !Z.min_r by lia. replace (len - len) with 0 by lia. simpl.
    rewrite skipn_all2 by (unfold len in Hgt; lia).
    rewrite firstn_nil. reflexivity.
Qed.

Lemma max_list_cons a l : max_list (a :: l) = Z.max a (max_list l).
Proof. reflexivity. Qed.

Lemma max_list_nonneg l : 0 <= max_list l.
Proof.
  induction l as [|a l IH]; [reflexivity|]. rewrite max_list_cons. lia.
Qed.

Lemma fold_left_max l : forall v,
  0 <= v -> fold_left Z.max l v = Z.max v (max_list l).
Proof.
  induction l as [|a l IH]; intros v Hv.
  - cbn [fold_left]. change (max_list []) with 0. lia.
  - cbn [fold_left]. rewrite IH, max_list_cons; lia.
Qed.

Lemma spec_starts_nonneg L W s : In s (spec_starts L W) -> 0 <= s.
Proof.
  unfold spec_starts. rewrite in_map_iff. intros [n [<- _]]. lia.
Qed.

Lemma range_is_starts n W L : n = L - W + 1 -> py_range0 n = spec_starts L W.
Proof. intros ->. reflexivity. Qed.

(** C1 (as amended).  For every grid, every window size [W >= 0] and every
    mapping table, [analyze_chunks] returns (it raises nothing) a table
    whose keys are exactly the ids of the mapping table, each once, and in
    which each id has the maximum, over the blocks of [W] rows that start
    at the positions [0 .. L - W], of its number of occurrences in the
    block; when [L < W] every id has 0. *)
Theorem analyze_chunks_max_over_windows :
  forall (rows : list (list Z)) (W : Z) (conv : ConvMap),
    0 <= W ->
    exists table,
      analyze_chunks rows W conv = Ok table /\
      NoDup (keys table) /\
      (forall id, In id (keys table) <-> In id (keys conv)) /\
      (forall id, In id (keys conv) ->
                  get Z.eq_dec table id = Some (spec_max_count rows W id)) /\
      (Z.of_nat (List.length rows) < W ->
       forall id, In id (keys conv) -> get Z.eq_dec table id = Some 0).
Proof.
  intros rows W conv HW.
  destruct (zero_counts_spec conv) as [Hnd [Hkeys Hzero]].
  unfold analyze_chunks.
  set (L := Z.of_nat (List.length rows)).
  destruct (analyze_loop rows W conv (py_range0 (L - W + 1)) (zero_counts conv))
    as [table [Hrun [Hk Hget]]].
  - exact Hkeys.
  - intros id v Hv.
    assert (Hin : In id (keys conv)) by (apply Hkeys; eapply get_Some_keys; eauto).
    rewrite (Hzero id Hin) in Hv. inversion Hv. lia.
  - assert (Hval : forall id, In id (keys conv) ->
                     get Z.eq_dec table id = Some (spec_max_count rows W id)).
    { intros id Hin. rewrite Hget, (Hzero id Hin). simpl. f_equal.
      rewrite fold_left_max by lia. unfold spec_max_count. fold L.
      rewrite (range_is_starts _ W L eq_refl).
      rewrite Z.max_r by apply max_list_nonneg.
      f_equal. apply map_ext_in. intros s Hs.
      rewrite py_slice_block; auto. eapply spec_starts_nonneg; eauto. }
    exists table. split; [exact Hrun|]. split; [rewrite Hk; exact Hnd|].
    split; [intros id; rewrite Hk; apply Hkeys|]. split; [exact Hval|].
    intros HL id Hin. rewrite (Hval id Hin). f_equal.
    unfold spec_max_count, spec_starts. fold L.
    replace (Z.to_nat (L - W + 1)) with 0%nat by lia. reflexivity.
Qed.

(** The statement at a concrete grid: three rows, windows of two rows. *)
Lemma analyze_chunks_max_over_windows_witness :
  0 <= 2 /\
  exists table,
    analyze_chunks [[1;1;1;1;1]; [2;2;2;2;2]; [1;1;1;1;1]] 2
      [(1, (0, 0)); (2, (1, 0))] = Ok table /\
    NoDup (keys table) /\
    (forall id, In id (keys table) <-> In id [1; 2]) /\
    (forall id, In id [1; 2] ->
       get Z.eq_dec table id =
       Some (spec_max_count [[1;1;1;1;1]; [2;2;2;2;2]; [1;1;1;1;1]] 2 id)) /\
    (3 < 2 -> forall id, In id [1; 2] -> get Z.eq_dec table id = Some 0).
Proof.
  split; [lia|].
  apply (analyze_chunks_max_over_windows
           [[1;1;1;1;1]; [2;2;2;2;2]; [1;1;1;1;1]] 2
           [(1, (0, 0)); (2, (1, 0))]).
  lia.
Defined.

(** C1, the claim as written, fails for a negative window size: the slice
    [level_rows[0:-1]] is every row but the last, not a block of [W] rows.
    With two rows of five 1s and [W = -1] the code gives id 1 the count 5,
    while no block of the specification holds a cell. *)
Lemma analyze_chunks_negative_window :
  analyze_chunks [[1;1;1;1;1]; [1;1;1;1;1]] (-1) [(1, (0, 0))] = Ok [(1, 5)] /\
  spec_max_count [[1;1;1;1;1]; [1;1;1;1;1]] (-1) 1 = 0 /\
  ~ (forall rows W conv, exists table,
       analyze_chunks rows W conv = Ok table /\
       forall id, In id (keys conv) ->
                  get Z.eq_dec table id = Some (spec_max_count rows W id)).
Proof.
  split; [reflexivity|]. split; [reflexivity|].
  intros H.
  destruct (H [[1;1;1;1;1]; [1;1;1;1;1]] (-1) [(1, (0, 0))]) as [t [Hrun Hget]].
  vm_compute in Hrun. inversion Hrun; subst.
  specialize (Hget 1 (or_introl eq_refl)). vm_compute in Hget. discriminate.
Qed.

(** ** The stable sort *)

Section StableSortFacts.
Context {A : Type}.
Variable key : A -> Z.

Local Abbreviation le_key := (fun a b : A => key a <= key b).

Lemma insert_by_perm a l : Permutation (insert_by key a l) (a :: l).
Proof.
  induction l as [|b l IH]; simpl; auto.
  destruct (key a <=? key b); auto.
  rewrite IH. apply perm_swap.
Qed.

Lemma sort_by_perm l : Permutation (sort_by key l) l.
Proof.
  induction l as [|a l IH]; simpl; auto.
  rewrite insert_by_perm. auto.
Qed.

Lemma insert_by_hd a b l :
  key b <= key a -> HdRel le_key b l -> HdRel le_key b (insert_by key a l).
Proof.
  intros Hba Hhd. destruct l as [|c l]; simpl.
  - constructor. exact Hba.
  - destruct (key a <=? key c); constructor; auto.
    inversion Hhd; auto.
Qed.

Lemma insert_by_sorted a l :
  Sorted le_key l -> Sorted le_key (insert_by key a l).
Proof.
  induction l as [|b l IH]; intros Hs; simpl.
  - repeat constructor.
  - inversion Hs as [|? ? Hs' Hhd]; subst.
    destruct (key a <=? key b) eqn:E.
    + apply Z.leb_le in E. repeat constructor; auto.
    + apply Z.leb_gt in E. constructor; auto.
      apply insert_by_hd; auto. lia.
Qed.

Lemma sort_by_sorted l : Sorted le_key (sort_by key l).
Proof.
  induction l as [|a l IH]; simpl.
  - constructor.
  - apply insert_by_sorted. exact IH.
Qed.

(** Stability: the elements of any one key are in the order they had. *)
Lemma insert_by_stable k a l :
  filter (fun e => key e =? k) (insert_by key a l) =
  filter (fun e => key e =? k) (a :: l).
Proof.
  induction l as [|b l IH]; [reflexivity|].
  cbn [insert_by]. destruct (key a <=? key b) eqn:E; [reflexivity|].
  apply Z.leb_gt in E. cbn [filter] in *. rewrite IH.
  destruct (key a =? k) eqn:Ea; destruct (key b =? k) eqn:Eb; auto.
  apply Z.eqb_eq in Ea, Eb. lia.
Qed.

Lemma sort_by_stable k l :
  filter (fun e => key e =? k) (sort_by key l) =
  filter (fun e => key e =? k) l.
Proof.
  induction l as [|a l IH]; [reflexivity|].
  cbn [sort_by fold_right]. fold (sort_by key l).
  rewrite insert_by_stable. cbn [filter]. rewrite IH. reflexivity.
Qed.
End StableSortFacts.

(** ** The stable sort is determined by its two properties *)

Section StableSortUnique.
Context {A : Type}.
Variable key : A -> Z.

Local Abbreviation le_key := (fun a b : A => key a <= key b).
Local Abbreviation of_key := (fun k (e : A) => key e =? k).

Lemma sorted_head_least a l :
  Sorted le_key (a :: l) -> forall e, In e (a :: l) -> key a <= key e.
Proof.
  intros Hs e Hin. apply Sorted_StronglySorted in Hs.
  - inversion Hs as [|? ? _ Hall]; subst. destruct Hin as [<-|Hin]; [lia|].
    rewrite Forall_forall in Hall. apply Hall. exact Hin.
  - intros x y z Hxy Hyz. lia.
Qed.

Lemma filter_head_in a (l l2 : list A) :
  filter (of_key (key a)) (a :: l) = filter (of_key (key a)) l2 ->
  exists e, In e l2 /\ key e = key a.
Proof.
  cbn [filter]. rewrite Z.eqb_refl. intros H.
  assert (Hin : In a (filter (of_key (key a)) l2)) by (rewrite <- H; left; reflexivity).
  apply filter_In in Hin. destruct Hin as [Hin _]. exists a. auto.
Qed.

Lemma sorted_same_filters_eq : forall l1 l2 : list A,
  Sorted le_key l1 -> Sorted le_key l2 ->
  (forall k, filter (of_key k) l1 = filter (of_key k) l2) ->
  l1 = l2.
Proof.
  induction l1 as [|a l1 IH]; intros l2 Hs1 Hs2 Hf.
  - destruct l2 as [|b l2]; [reflexivity|].
    specialize (Hf (key b)). cbn [filter] in Hf. rewrite Z.eqb_refl in Hf.
    discriminate.
  - destruct l2 as [|b l2].
    { specialize (Hf (key a)). cbn [filter] in Hf. rewrite Z.eqb_refl in Hf.
      discriminate. }
    assert (Hab : key a = key b).
    { destruct (filter_head_in a l1 (b :: l2) (Hf (key a))) as [e [He Hke]].
      destruct (filter_head_in b l2 (a :: l1) (eq_sym (Hf (key b)))) as [e' [He' Hke']].
      pose proof (sorted_head_least b l2 Hs2 e He).
      pose proof (sorted_head_least a l1 Hs1 e' He').
      lia. }
    assert (Hhead := Hf (key a)). cbn [filter] in Hhead.
    rewrite Z.eqb_refl in Hhead.
    replace (key b =? key a) with true in Hhead
      by (symmetry; apply Z.eqb_eq; lia).
    inversion Hhead as [[Heq Htail]]. subst b. f_equal.
    apply IH.
    + inversion Hs1; assumption.
    + inversion Hs2; assumption.
    + intros k. specialize (Hf k). cbn [filter] in Hf.
      destruct (key a =? k); [inversion Hf; reflexivity | exact Hf].
Qed.

(** Whatever algorithm sorts stably on [key], its result is [sort_by]. *)
Lemma stable_sort_unique (l l' : list A) :
  Sorted le_key l' ->
  (forall k, filter (of_key k) l' = filter (of_key k) l) ->
  l' = sort_by key l.
Proof.
  intros Hs Hf. apply sorted_same_filters_eq.
  - exact Hs.
  - apply sort_by_sorted.
  - intros k. rewrite Hf. symmetry. apply sort_by_stable.
Qed.
End StableSortUnique.

(** ** The aggregator *)

Lemma cat_eqb_eq a b : cat_eqb a b = true <-> a = b.
Proof. unfold cat_eqb. destruct (cat_eq_dec a b); split; congruence. Qed.

Lemma cat_eqb_refl a : cat_eqb a a = true.
Proof. apply cat_eqb_eq. reflexivity. Qed.

Lemma cat_eqb_neq a b : a <> b -> cat_eqb a b = false.
Proof. unfold cat_eqb. destruct (cat_eq_dec a b); congruence. Qed.

Lemma category_sum_cons id cat (l : ConvMap) mc c :
  category_sum ((id, cat) :: l) mc c =
  (if cat_eqb cat c then Z.max 0 (get_default Z.eq_dec mc id 0) else 0)
  + category_sum l mc c.
Proof.
  unfold category_sum, ids_of_category. cbn [filter snd].
  destruct (cat_eqb cat c); reflexivity.
Qed.

Lemma category_sum_nonneg (l : ConvMap) mc c : 0 <= category_sum l mc c.
Proof.
  induction l as [|[id cat] l IH]; [reflexivity|].
  rewrite category_sum_cons. destruct (cat_eqb cat c); lia.
Qed.

Lemma add_count_unfold mc g id cat :
  add_count mc g (id, cat) =
  if get_default Z.eq_dec mc id 0 >? 0
  then set cat_eq_dec cat
         (get_default cat_eq_dec g cat 0 + get_default Z.eq_dec mc id 0) g
  else g.
Proof. destruct cat as [x y]. reflexivity. Qed.

(** The table of totals after some more ids have been folded in. *)
Lemma fold_counts_get mc (l : ConvMap) : forall g c,
  get cat_eq_dec (fold_left (add_count mc) l g) c =
  if 0 <? category_sum l mc c
  then Some (get_default cat_eq_dec g c 0 + category_sum l mc c)
  else get cat_eq_dec g c.
Proof.
  induction l as [|[id cat] l IH]; intros g c; [reflexivity|].
  cbn [fold_left]. rewrite IH, category_sum_cons, add_count_unfold.
  pose proof (category_sum_nonneg l mc c) as Hs.
  set (s := category_sum l mc c) in *.
  set (n := get_default Z.eq_dec mc id 0).
  destruct (n >? 0) eqn:Hn.
  - assert (0 < n) by (apply Z.gtb_lt in Hn; lia).
    destruct (cat_eq_dec cat c) as [->|Hne].
    + rewrite cat_eqb_refl. unfold get_default at 1. rewrite !get_set_same.
      replace (0 <? Z.max 0 n + s) with true by (symmetry; apply Z.ltb_lt; lia).
      destruct (0 <? s) eqn:E; f_equal; [lia|].
      apply Z.ltb_ge in E. lia.
    + rewrite (cat_eqb_neq _ _ Hne). unfold get_default at 1.
      rewrite !get_set_other by exact Hne. reflexivity.
  - assert (n <= 0).
    { rewrite Z.gtb_ltb in Hn. apply Z.ltb_ge in Hn. exact Hn. }
    replace (Z.max 0 n) with 0 by lia.
    destruct (cat_eqb cat c); reflexivity.
Qed.

Lemma fold_counts_NoDup mc (l : ConvMap) : forall g,
  NoDup (keys g) -> NoDup (keys (fold_left (add_count mc) l g)).
Proof.
  induction l as [|[id cat] l IH]; intros g Hnd; [exact Hnd|].
  cbn [fold_left]. apply IH. rewrite add_count_unfold.
  destruct (_ >? 0); auto. apply NoDup_keys_set. exact Hnd.
Qed.

(** The order of the categories in the table of totals. *)
Lemma fold_counts_keys mc (l : ConvMap) : forall g,
  keys (fold_left (add_count mc) l g) =
  fold_left touch (map snd (filter (counted mc) l)) (keys g).
Proof.
  induction l as [|[id cat] l IH]; intros g; [reflexivity|].
  cbn [fold_left filter]. rewrite IH, add_count_unfold.
  unfold counted at 2. cbn [fst].
  destruct (get_default Z.eq_dec mc id 0 >? 0); [|reflexivity].
  cbn [map fold_left snd]. f_equal. unfold touch.
  destruct (in_dec cat_eq_dec cat (keys g)) as [Hin|Hout].
  - apply keys_set_present. exact Hin.
  - apply keys_set_absent. exact Hout.
Qed.

Lemma category_sum_perm (l l' : ConvMap) mc c :
  Permutation l l' -> category_sum l mc c = category_sum l' mc c.
Proof.
  induction 1 as [|[id cat] l l' _ IH|[id cat] [id' cat'] l|l l' l'' _ IH1 _ IH2].
  - reflexivity.
  - rewrite !category_sum_cons. lia.
  - rewrite !category_sum_cons. lia.
  - congruence.
Qed.

Lemma category_sum_total (l : ConvMap) mc c :
  (forall id, 0 <= get_default Z.eq_dec mc id 0) ->
  category_sum l mc c = category_total l mc c.
Proof.
  intros Hpos. unfold category_sum, category_total. f_equal.
  apply map_ext. intros id. specialize (Hpos id). lia.
Qed.

Lemma category_sum_drop_zero (l : ConvMap) mc c :
  category_sum (filter (counted mc) l) mc c = category_sum l mc c.
Proof.
  induction l as [|[id cat] l IH]; [reflexivity|].
  cbn [filter]. unfold counted at 1. cbn [fst].
  destruct (get_default Z.eq_dec mc id 0 >? 0) eqn:E.
  - rewrite !category_sum_cons. lia.
  - rewrite category_sum_cons, IH.
    rewrite Z.gtb_ltb in E. apply Z.ltb_ge in E.
    destruct (cat_eqb cat c); lia.
Qed.

Lemma fold_counts_lookup conv mc c :
  get cat_eq_dec (fold_counts conv mc) c =
  if 0 <? category_sum conv mc c then Some (category_sum conv mc c) else None.
Proof.
  unfold fold_counts, items. rewrite fold_counts_get. reflexivity.
Qed.

Lemma fold_counts_entry conv mc c z :
  In (c, z) (fold_counts conv mc) <->
  0 < z /\ z = category_sum conv mc c.
Proof.
  assert (Hnd : NoDup (keys (fold_counts conv mc))).
  { apply fold_counts_NoDup. constructor. }
  split.
  - intros Hin. apply (In_get_Some cat_eq_dec _ _ _ Hnd) in Hin.
    rewrite fold_counts_lookup in Hin.
    destruct (0 <? category_sum conv mc c) eqn:E; [|discriminate].
    apply Z.ltb_lt in E. inversion Hin; subst. auto.
  - intros [Hz ->]. apply (get_Some_In cat_eq_dec).
    rewrite fold_counts_lookup.
    replace (0 <? category_sum conv mc c) with true
      by (symmetry; apply Z.ltb_lt; exact Hz).
    reflexivity.
Qed.

(** C5.  The totals of the aggregator do not depend on the order in which
    the ids are folded: for any reordering of the mapping table, every
    category has the same total, which is the sum of the max counts of the
    ids that map to it (of the counts above zero, which for a table
    without negative values is the sum of all of them; for two such ids
    with counts above zero, the sum of the two); an id whose max count is
    zero can be dropped without changing the totals, and no entry of the
    totals is zero. *)
Theorem aggregator_totals_order_independent :
  forall (conv conv' : ConvMap) (max_counts : dict Z Z),
    Permutation conv conv' ->
    (forall c, get cat_eq_dec (fold_counts conv max_counts) c =
               get cat_eq_dec (fold_counts conv' max_counts) c) /\
    (forall c, get cat_eq_dec (fold_counts conv max_counts) c =
               if 0 <? category_sum conv max_counts c
               then Some (category_sum conv max_counts c) else None) /\
    ((forall id, 0 <= get_default Z.eq_dec max_counts id 0) ->
     forall c, category_sum conv max_counts c =
               category_total conv max_counts c) /\
    (forall c i j,
        ids_of_category conv c = [i; j] ->
        0 < get_default Z.eq_dec max_counts i 0 ->
        0 < get_default Z.eq_dec max_counts j 0 ->
        get cat_eq_dec (fold_counts conv max_counts) c =
        Some (get_default Z.eq_dec max_counts i 0
              + get_default Z.eq_dec max_counts j 0) /\
        get cat_eq_dec (fold_counts conv' max_counts) c =
        Some (get_default Z.eq_dec max_counts i 0
              + get_default Z.eq_dec max_counts j 0)) /\
    (forall c, get cat_eq_dec
                 (fold_counts (filter (counted max_counts) conv) max_counts) c =
               get cat_eq_dec (fold_counts conv max_counts) c) /\
    (forall c z, In (c, z) (fold_counts conv max_counts) -> z <> 0) /\
    (forall x y z, In (x, y, z) (generate_geobuffer_list conv max_counts) ->
                   z <> 0).
Proof.
  intros conv conv' mc Hperm.
  assert (Hsame : forall c, get cat_eq_dec (fold_counts conv mc) c =
                            get cat_eq_dec (fold_counts conv' mc) c).
  { intros c. rewrite !fold_counts_lookup.
    rewrite (category_sum_perm conv conv' mc c Hperm). reflexivity. }
  assert (Hpair : forall c i j,
             ids_of_category conv c = [i; j] ->
             0 < get_default Z.eq_dec mc i 0 ->
             0 < get_default Z.eq_dec mc j 0 ->
             get cat_eq_dec (fold_counts conv mc) c =
             Some (get_default Z.eq_dec mc i 0 + get_default Z.eq_dec mc j 0)).
  { intros c i j Hids Hi Hj. rewrite fold_counts_lookup.
    assert (Hs : category_sum conv mc c =
                 get_default Z.eq_dec mc i 0 + get_default Z.eq_dec mc j 0).
    { unfold category_sum. rewrite Hids. cbn [map sum_list fold_right]. lia. }
    rewrite Hs.
    replace (0 <? _) with true by (symmetry; apply Z.ltb_lt; lia).
    reflexivity. }
  split; [exact Hsame|].
  split; [intros c; apply fold_counts_lookup|].
  split; [intros Hpos c; apply category_sum_total; exact Hpos|].
  split.
  { intros c i j Hids Hi Hj. split.
    - apply Hpair; assumption.
    - rewrite <- Hsame. apply Hpair; assumption. }
  split.
  { intros c. rewrite !fold_counts_lookup, category_sum_drop_zero. reflexivity. }
  split.
  { intros c z Hin. apply fold_counts_entry in Hin. lia. }
  intros x y z Hin. unfold generate_geobuffer_list in Hin.
  apply (Permutation_in _ (sort_by_perm entry_x _)) in Hin.
  unfold geo_entries, items in Hin. apply in_map_iff in Hin.
  destruct Hin as [[[x' y'] z'] [E Hin]]. inversion E; subst.
  apply fold_counts_entry in Hin. lia.
Qed.

(** The statement at a concrete table: ids 1 and 2 share category (0,0). *)
Lemma aggregator_totals_order_independent_witness :
  Permutation [(1, (0, 0)); (2, (0, 0)); (3, (1, 0))]
              [(2, (0, 0)); (1, (0, 0)); (3, (1, 0))] /\
  get cat_eq_dec
    (fold_counts [(1, (0, 0)); (2, (0, 0)); (3, (1, 0))] [(1, 3); (2, 4); (3, 0)])
    (0, 0) =
  get cat_eq_dec
    (fold_counts [(2, (0, 0)); (1, (0, 0)); (3, (1, 0))] [(1, 3); (2, 4); (3, 0)])
    (0, 0).
Proof.
  split; [apply perm_swap|].
  apply (aggregator_totals_order_independent
           [(1, (0, 0)); (2, (0, 0)); (3, (1, 0))]
           [(2, (0, 0)); (1, (0, 0)); (3, (1, 0))]
           [(1, 3); (2, 4); (3, 0)]).
  apply perm_swap.
Defined.

Lemma geo_entries_cats (d : dict Category Z) :
  map entry_cat (geo_entries d) = keys d.
Proof.
  unfold geo_entries, items, keys. rewrite map_map.
  apply map_ext. intros [[x y] z]. reflexivity.
Qed.

Lemma filter_map_commute {A B : Type} (f : A -> B) (p : B -> bool) (l : list A) :
  map f (filter (fun a => p (f a)) l) = filter p (map f l).
Proof.
  induction l as [|a l IH]; [reflexivity|].
  cbn [filter map]. destruct (p (f a)); cbn [map]; congruence.
Qed.

Lemma first_touch_order_keys conv mc :
  keys (fold_counts conv mc) = first_touch_order conv mc.
Proof. unfold fold_counts, items. apply fold_counts_keys. Qed.

(** C6.  The output of the aggregator has one entry for each category whose
    total is above zero, with that total; it is sorted ascending on the x
    component; and the entries of any one x value are in the order in which
    the fold first touched their categories, whatever their y.  These
    properties fix the output: any list sorted on x that keeps the fold
    order within each x value is the output. *)
Theorem aggregator_output_sorted_stable :
  forall (conv : ConvMap) (max_counts : dict Z Z),
    let out := generate_geobuffer_list conv max_counts in
    NoDup (map entry_cat out) /\
    (forall x y z, In (x, y, z) out <->
                   0 < z /\ z = category_sum conv max_counts (x, y)) /\
    Sorted le_x out /\
    Permutation out (geo_entries (fold_counts conv max_counts)) /\
    (forall k, filter (same_x k) out =
               filter (same_x k) (geo_entries (fold_counts conv max_counts))) /\
    (forall k, map entry_cat (filter (same_x k) out) =
               filter (fun c => fst c =? k) (first_touch_order conv max_counts)) /\
    (forall out',
        Sorted le_x out' ->
        (forall k, filter (same_x k) out' =
                   filter (same_x k)
                     (geo_entries (fold_counts conv max_counts))) ->
        out' = out).
Proof.
  intros conv mc out.
  assert (Hperm : Permutation out (geo_entries (fold_counts conv mc))).
  { apply sort_by_perm. }
  assert (Hstable : forall k, filter (same_x k) out =
             filter (same_x k) (geo_entries (fold_counts conv mc))).
  { intros k. apply (sort_by_stable entry_x). }
  split.
  { apply (Permutation_NoDup (l := map entry_cat (geo_entries (fold_counts conv mc)))).
    - apply Permutation_map. symmetry. exact Hperm.
    - rewrite geo_entries_cats. apply fold_counts_NoDup. constructor. }
  split.
  { intros x y z. rewrite <- fold_counts_entry. split.
    - intros Hin. apply (Permutation_in _ Hperm) in Hin.
      unfold geo_entries, items in Hin. apply in_map_iff in Hin.
      destruct Hin as [[[x' y'] z'] [E Hin]]. inversion E; subst. exact Hin.
    - intros Hin. apply (Permutation_in _ (Permutation_sym Hperm)).
      unfold geo_entries, items. apply in_map_iff.
      exists (x, y, z). split; [reflexivity | exact Hin]. }
  split; [apply (sort_by_sorted entry_x)|].
  split; [exact Hperm|].
  split; [exact Hstable|].
  split.
  { intros k. rewrite Hstable.
    rewrite <- first_touch_order_keys, <- geo_entries_cats.
    apply (filter_map_commute entry_cat (fun c => fst c =? k)). }
  intros out' Hsorted Hsame.
  apply (stable_sort_unique entry_x); assumption.
Qed.

(** C8.  The worked example: three rows, ids 1 and 2, windows of two rows. *)
Theorem end_to_end_example :
  analyze_chunks [[1;1;1;1;1]; [2;2;2;2;2]; [1;1;1;1;1]] 2
    [(1, (0, 0)); (2, (1, 0))] = Ok [(1, 5); (2, 5)] /\
  generate_geobuffer_list [(1, (0, 0)); (2, (1, 0))] [(1, 5); (2, 5)] =
    [(0, 0, 5); (1, 0, 5)] /\
  occurrences 1 (py_slice [[1;1;1;1;1]; [2;2;2;2;2]; [1;1;1;1;1]] 0 2) = 5 /\
  occurrences 2 (py_slice [[1;1;1;1;1]; [2;2;2;2;2]; [1;1;1;1;1]] 0 2) = 5 /\
  occurrences 1 (py_slice [[1;1;1;1;1]; [2;2;2;2;2]; [1;1;1;1;1]] 1 3) = 5 /\
  occurrences 2 (py_slice [[1;1;1;1;1]; [2;2;2;2;2]; [1;1;1;1;1]] 1 3) = 5.
Proof. repeat split; reflexivity. Qed.

(** ** The pipeline *)

(** [analyze_chunks] raises nothing, whatever the window size. *)
Lemma analyze_chunks_total rows W conv :
  exists table, analyze_chunks rows W conv = Ok table.
Proof.
  destruct (zero_counts_spec conv) as [_ [Hkeys Hzero]].
  destruct (analyze_loop rows W conv
              (py_range0 (Z.of_nat (List.length rows) - W + 1))
              (zero_counts conv)) as [table [Hrun _]].
  - exact Hkeys.
  - intros id v Hv.
    assert (Hin : In id (keys conv)) by (apply Hkeys; eapply get_Some_keys; eauto).
    rewrite (Hzero id Hin) in Hv. inversion Hv. lia.
  - exists table. exact Hrun.
Qed.

Lemma run_processing_cases fs conv gui :
  RunCase fs conv gui (run_processing fs conv gui).
Proof.
  unfold run_processing, parse_level_file.
  destruct (nonempty (input_file_var gui)) eqn:Hin; cbn [negb].
  2: { apply run_no_input. exact Hin. }
  destruct (nonempty (output_file_var gui)) eqn:Hout; cbn [negb].
  2: { apply run_no_output; assumption. }
  destruct (py_int (chunk_size_var gui)) as [W|] eqn:HW.
  2: { apply run_not_integer; assumption. }
  destruct (fs_readlines fs (input_file_var gui)) as [lines|] eqn:Hread.
  2: { cbn [bind]. eapply run_cannot_open; eassumption. }
  cbn [bind]. destruct (parse_lines lines) as [|row rows] eqn:Hrows.
  { eapply run_no_rows; eassumption. }
  destruct (analyze_chunks_total (row :: rows) W conv) as [table Htable].
  rewrite Htable. cbn [bind]. rewrite <- Hrows in Htable.
  eapply run_analysis; try eassumption. rewrite Hrows. discriminate.
Qed.

Lemma run_processing_analysis fs conv gui W lines :
  nonempty (input_file_var gui) = true ->
  nonempty (output_file_var gui) = true ->
  py_int (chunk_size_var gui) = Some W ->
  fs_readlines fs (input_file_var gui) = Some lines ->
  parse_lines lines <> [] ->
  exists table,
    analyze_chunks (parse_lines lines) W conv = Ok table /\
    run_processing fs conv gui =
    Ok (report fs (output_file_var gui)
          (inject_preset (add_geobuffer0_var gui)
             (generate_geobuffer_list conv table))).
Proof.
  intros Hin Hout HW Hread Hrows.
  destruct (analyze_chunks_total (parse_lines lines) W conv) as [table Htable].
  exists table. split; [exact Htable|].
  unfold run_processing, parse_level_file.
  rewrite Hin, Hout, HW, Hread. cbn [negb bind].
  destruct (parse_lines lines) as [|row rows]; [congruence|].
  rewrite Htable. reflexivity.
Qed.

Lemma report_nonempty fs path e l :
  report fs path (e :: l) =
  if fs_writable fs path
  then [FileWritten path (map format_entry (e :: l)); MessageBox (SuccessInfo path)]
  else write_failure_events fs path (map format_entry (e :: l)).
Proof.
  unfold report, write_output. destruct (fs_writable fs path); reflexivity.
Qed.

Lemma report_no_matching fs path l :
  In (MessageBox NoMatchingIdsInfo) (report fs path l) <-> l = [].
Proof.
  destruct l as [|e l].
  - simpl. tauto.
  - rewrite report_nonempty. split; [|discriminate].
    unfold write_failure_events.
    destruct (fs_writable fs path); [|destruct (fs_write_fault fs path)];
      simpl; intros H;
      repeat (destruct H as [H|H]; try discriminate); contradiction.
Qed.

Lemma preset_length : List.length PRESET_GEOBUFFER0 = 59%nat.
Proof. reflexivity. Qed.

Lemma inject_preset_nonempty l : inject_preset true l <> [].
Proof.
  unfold inject_preset. intros H. apply (f_equal (@List.length _)) in H.
  rewrite length_app, preset_length in H. discriminate.
Qed.





(** C4 (as amended).  The preset list has 59 entries.  With the preset
    enabled, the list that goes to the writer is the preset list followed
    by the computed entries: its first 59 entries are the preset ones as
    they stand, the rest are the computed ones as they stand, and nothing
    is dropped or merged, so that the length is 59 plus the number of
    computed entries.  A run that reaches the writer writes the lines of
    exactly this list. *)
Theorem preset_injection_prepends :
  List.length PRESET_GEOBUFFER0 = 59%nat /\
  (forall computed,
      inject_preset true computed = PRESET_GEOBUFFER0 ++ computed /\
      firstn 59 (inject_preset true computed) = PRESET_GEOBUFFER0 /\
      skipn 59 (inject_preset true computed) = computed /\
      List.length (inject_preset true computed)
      = (59 + List.length computed)%nat) /\
  (forall computed, inject_preset false computed = computed) /\
  (forall fs conv gui W lines,
      add_geobuffer0_var gui = true ->
      nonempty (input_file_var gui) = true ->
      nonempty (output_file_var gui) = true ->
      py_int (chunk_size_var gui) = Some W ->
      fs_readlines fs (input_file_var gui) = Some lines ->
      parse_lines lines <> [] ->
      fs_writable fs (output_file_var gui) = true ->
      exists table,
        analyze_chunks (parse_lines lines) W conv = Ok table /\
        run_processing fs conv gui =
        Ok [FileWritten (output_file_var gui)
              (map format_entry
                 (PRESET_GEOBUFFER0 ++ generate_geobuffer_list conv table));
            MessageBox (SuccessInfo (output_file_var gui))]).
Proof.
  split; [reflexivity|]. split; [|split; [reflexivity|]].
  - intros computed. unfold inject_preset.
    split; [reflexivity|]. split; [|split].
    + rewrite <- preset_length. rewrite firstn_app, firstn_all, Nat.sub_diag.
      cbn [firstn]. apply app_nil_r.
    + rewrite <- preset_length. rewrite skipn_app, skipn_all, Nat.sub_diag.
      reflexivity.
    + rewrite length_app, preset_length. reflexivity.
  - intros fs conv gui W lines Hflag Hin Hout HW Hread Hrows Hwr.
    destruct (run_processing_analysis fs conv gui W lines Hin Hout HW Hread Hrows)
      as [table [Htable Hrun]].
    exists table. split; [exact Htable|]. rewrite Hrun, Hflag.
    destruct (inject_preset true (generate_geobuffer_list conv table))
      as [|e l] eqn:E.
    + exfalso. exact (inject_preset_nonempty _ E).
    + rewrite report_nonempty, Hwr, <- E. reflexivity.
Qed.

(** C4, the claim as written, fails on the number: the list of the code
    has 59 entries, not 60. *)
Lemma preset_has_not_sixty_entries :
  List.length PRESET_GEOBUFFER0 <> 60%nat /\
  List.length (inject_preset true [(5, 0, 3)]) = 60%nat /\
  nth_error (inject_preset true [(5, 0, 3)]) 59 = Some (5, 0, 3).
Proof. split; [discriminate|]. split; reflexivity. Qed.

(** C10.  With the preset enabled no run ends in the message that no id
    matched: the emptiness test sees the list after the injection, which
    is never empty.  A run whose computed list is empty then goes to the
    writer with the preset entries alone.  The message is given only with
    the preset disabled, and then exactly when the computed list is
    empty. *)
Theorem preset_hides_empty_result :
  forall (fs : FileSystem) (conv : ConvMap) (gui : Gui),
    (add_geobuffer0_var gui = true ->
     forall events, run_processing fs conv gui = Ok events ->
                    ~ In (MessageBox NoMatchingIdsInfo) events) /\
    (forall W lines table,
        add_geobuffer0_var gui = true ->
        nonempty (input_file_var gui) = true ->
        nonempty (output_file_var gui) = true ->
        py_int (chunk_size_var gui) = Some W ->
        fs_readlines fs (input_file_var gui) = Some lines ->
        parse_lines lines <> [] ->
        analyze_chunks (parse_lines lines) W conv = Ok table ->
        generate_geobuffer_list conv table = [] ->
        run_processing fs conv gui =
        Ok (if fs_writable fs (output_file_var gui)
            then [FileWritten (output_file_var gui)
                    (map format_entry PRESET_GEOBUFFER0);
                  MessageBox (SuccessInfo (output_file_var gui))]
            else write_failure_events fs (output_file_var gui)
                   (map format_entry PRESET_GEOBUFFER0))) /\
    (forall events,
        run_processing fs conv gui = Ok events ->
        In (MessageBox NoMatchingIdsInfo) events ->
        add_geobuffer0_var gui = false /\
        exists W lines table,
          py_int (chunk_size_var gui) = Some W /\
          fs_readlines fs (input_file_var gui) = Some lines /\
          analyze_chunks (parse_lines lines) W conv = Ok table /\
          generate_geobuffer_list conv table = []) /\
    (forall W lines table,
        add_geobuffer0_var gui = false ->
        nonempty (input_file_var gui) = true ->
        nonempty (output_file_var gui) = true ->
        py_int (chunk_size_var gui) = Some W ->
        fs_readlines fs (input_file_var gui) = Some lines ->
        parse_lines lines <> [] ->
        analyze_chunks (parse_lines lines) W conv = Ok table ->
        generate_geobuffer_list conv table = [] ->
        run_processing fs conv gui = Ok [MessageBox NoMatchingIdsInfo]).
Proof.
  intros fs conv gui.
  assert (Hinv : forall events,
             run_processing fs conv gui = Ok events ->
             In (MessageBox NoMatchingIdsInfo) events ->
             add_geobuffer0_var gui = false /\
             exists W lines table,
               py_int (chunk_size_var gui) = Some W /\
               fs_readlines fs (input_file_var gui) = Some lines /\
               analyze_chunks (parse_lines lines) W conv = Ok table /\
               generate_geobuffer_list conv table = []).
  { intros events Hrun Hmsg.
    destruct (run_processing_cases fs conv gui)
      as [H1|H1 H2|H1 H2 H3|W H1 H2 H3 H4|W lines H1 H2 H3 H4 H5
          |W lines table H1 H2 H3 H4 H5 H6];
      try (inversion Hrun; subst; simpl in Hmsg;
           destruct Hmsg as [Hmsg|[]]; discriminate).
    inversion Hrun; subst. apply report_no_matching in Hmsg.
    destruct (add_geobuffer0_var gui) eqn:Hflag.
    - exfalso. exact (inject_preset_nonempty _ Hmsg).
    - split; [reflexivity|]. exists W, lines, table. auto. }
  assert (Hfwd : forall W lines table,
             nonempty (input_file_var gui) = true ->
             nonempty (output_file_var gui) = true ->
             py_int (chunk_size_var gui) = Some W ->
             fs_readlines fs (input_file_var gui) = Some lines ->
             parse_lines lines <> [] ->
             analyze_chunks (parse_lines lines) W conv = Ok table ->
             generate_geobuffer_list conv table = [] ->
             run_processing fs conv gui =
             Ok (report fs (output_file_var gui)
                   (inject_preset (add_geobuffer0_var gui) []))).
  { intros W lines table Hin Hout HW Hread Hrows Htable Hgen.
    destruct (run_processing_analysis fs conv gui W lines Hin Hout HW Hread Hrows)
      as [table' [Htable' Hrun]].
    rewrite Htable in Htable'. inversion Htable'; subst table'.
    rewrite Hrun, Hgen. reflexivity. }
  split; [|split; [|split]].
  - intros Hflag events Hrun Hmsg.
    destruct (Hinv events Hrun Hmsg) as [Hoff _]. congruence.
  - intros W lines table Hflag Hin Hout HW Hread Hrows Htable Hgen.
    rewrite (Hfwd W lines table) by assumption. rewrite Hflag.
    unfold inject_preset. rewrite app_nil_r.
    unfold PRESET_GEOBUFFER0 at 1. rewrite report_nonempty. reflexivity.
  - exact Hinv.
  - intros W lines table Hflag Hin Hout HW Hread Hrows Htable Hgen.
    rewrite (Hfwd W lines table) by assumption. rewrite Hflag. reflexivity.
Qed.

(** The pipeline statement of the preset injection at a concrete run. *)
Lemma preset_injection_prepends_witness :
  exists table,
    analyze_chunks (parse_lines ["1,1,1,1,1"%string]) 1 [(1, (5, 0))] = Ok table /\
    run_processing (example_fs ["1,1,1,1,1"%string]) [(1, (5, 0))]
      (example_gui "1" true) =
    Ok [FileWritten "out.txt"
          (map format_entry
             (PRESET_GEOBUFFER0 ++ generate_geobuffer_list [(1, (5, 0))] table));
        MessageBox (SuccessInfo "out.txt")].
Proof.
  apply (proj2 (proj2 (proj2 preset_injection_prepends))
           (example_fs ["1,1,1,1,1"%string]) [(1, (5, 0))]
           (example_gui "1" true) 1 ["1,1,1,1,1"%string]);
    try reflexivity.
  discriminate.
Defined.

(** A run with no matching id and the preset enabled writes the preset. *)
Lemma preset_hides_empty_result_witness :
  run_processing (example_fs ["9,9,9,9,9"%string]) [(1, (0, 0))]
    (example_gui "1" true) =
  Ok [FileWritten "out.txt" (map format_entry PRESET_GEOBUFFER0);
      MessageBox (SuccessInfo "out.txt")].
Proof.
  apply (proj1 (proj2 (preset_hides_empty_result
                         (example_fs ["9,9,9,9,9"%string]) [(1, (0, 0))]
                         (example_gui "1" true)))
           1 ["9,9,9,9,9"%string] [(1, 0)]);
    try reflexivity.
  discriminate.
Defined.

(** ** The roller override *)

Lemma set_all_get ids mapping : forall (m : ConvMap) id,
  get Z.eq_dec (set_all ids mapping m) id =
  if in_dec Z.eq_dec id ids then Some mapping else get Z.eq_dec m id.
Proof.
  induction ids as [|k ids IH]; intros m id; [reflexivity|].
  cbn [set_all fold_left]. fold (set_all ids mapping (set Z.eq_dec k mapping m)).
  rewrite IH.
  destruct (in_dec Z.eq_dec id ids) as [Hin|Hout];
    destruct (in_dec Z.eq_dec id (k :: ids)) as [Hin'|Hout']; auto.
  - exfalso. apply Hout'. right. exact Hin.
  - destruct Hin' as [->|Hin']; [|contradiction]. apply get_set_same.
  - apply get_set_other. intros ->. apply Hout'. left. reflexivity.
Qed.

Lemma set_all_keys ids mapping : forall (m : ConvMap) id,
  In id (keys (set_all ids mapping m)) <-> In id ids \/ In id (keys m).
Proof.
  induction ids as [|k ids IH]; intros m id.
  - simpl. tauto.
  - cbn [set_all fold_left]. fold (set_all ids mapping (set Z.eq_dec k mapping m)).
    rewrite IH, in_keys_set. simpl. split.
    + intros [H|[->|H]]; auto.
    + intros [[->|H]|H]; auto.
Qed.

Lemma set_all_fixed ids mapping : forall m : ConvMap,
  (forall id, In id ids -> get Z.eq_dec m id = Some mapping) ->
  set_all ids mapping m = m.
Proof.
  induction ids as [|k ids IH]; intros m Hall; [reflexivity|].
  cbn [set_all fold_left]. rewrite set_same_value.
  - apply IH. intros id Hin. apply Hall. right. exact Hin.
  - apply Hall. left. reflexivity.
Qed.

Lemma set_frame (p : Z -> bool) k (v : Category) : forall m : ConvMap,
  p k = false ->
  filter (fun kv => p (fst kv)) (set Z.eq_dec k v m) =
  filter (fun kv => p (fst kv)) m.
Proof.
  intros m Hk. induction m as [|[k' v'] m IH]; cbn [set filter fst].
  - rewrite Hk. reflexivity.
  - destruct (Z.eq_dec k k') as [->|Hne]; cbn [filter fst].
    + rewrite Hk. reflexivity.
    + rewrite IH. reflexivity.
Qed.

Lemma set_all_frame (p : Z -> bool) ids mapping : forall m : ConvMap,
  (forall id, In id ids -> p id = false) ->
  filter (fun kv => p (fst kv)) (set_all ids mapping m) =
  filter (fun kv => p (fst kv)) m.
Proof.
  induction ids as [|k ids IH]; intros m Hp; [reflexivity|].
  cbn [set_all fold_left]. fold (set_all ids mapping (set Z.eq_dec k mapping m)).
  rewrite IH by (intros id Hin; apply Hp; right; exact Hin).
  apply set_frame. apply Hp. left. reflexivity.
Qed.

Lemma is_roller_true id : is_roller id = true <-> In id ROLLER_IDS.
Proof.
  unfold is_roller. destruct (in_dec Z.eq_dec id ROLLER_IDS); split;
    auto; discriminate.
Qed.

(** What an override does to the lookups and to the keys. *)
Lemma apply_roller_mapping_lookup rm selection (conv : ConvMap) :
  let conv' := apply_roller_mapping rm selection conv in
  (forall id, In id ROLLER_IDS ->
              get Z.eq_dec conv' id = Some (roller_category rm selection)) /\
  (forall id, ~ In id ROLLER_IDS ->
              get Z.eq_dec conv' id = get Z.eq_dec conv id) /\
  (forall id, In id (keys conv') <-> In id ROLLER_IDS \/ In id (keys conv)).
Proof.
  unfold apply_roller_mapping. split; [|split].
  - intros id Hin. rewrite set_all_get.
    destruct (in_dec Z.eq_dec id ROLLER_IDS); [reflexivity | contradiction].
  - intros id Hout. rewrite set_all_get.
    destruct (in_dec Z.eq_dec id ROLLER_IDS); [contradiction | reflexivity].
  - intros id. apply set_all_keys.
Qed.

Lemma roller_category_selected rm selection :
  roller_category rm selection = selected_category rm selection.
Proof.
  unfold roller_category, selected_category, get_default.
  destruct (get string_dec rm selection); [reflexivity|].
  destruct (get string_dec rm "Default"%string); reflexivity.
Qed.

(** C9.  An override is a reassignment of the whole group: after it each
    of the eight roller ids maps to the one selected category, which is
    the entry of the selection in the table of roller mappings, else the
    entry of "Default", else (24, 4); applying the same override again
    changes nothing; and every other id keeps its entry, value and
    position. *)
Theorem roller_override_whole_group :
  forall (roller_mappings : dict string Category) (selection : string)
         (conv : ConvMap),
    let conv' := apply_roller_mapping roller_mappings selection conv in
    List.length ROLLER_IDS = 8%nat /\
    NoDup ROLLER_IDS /\
    (forall id, In id ROLLER_IDS ->
                get Z.eq_dec conv' id =
                Some (roller_category roller_mappings selection)) /\
    apply_roller_mapping roller_mappings selection conv' = conv' /\
    (forall id, ~ In id ROLLER_IDS ->
                get Z.eq_dec conv' id = get Z.eq_dec conv id) /\
    filter (fun kv => negb (is_roller (fst kv))) conv' =
    filter (fun kv => negb (is_roller (fst kv))) conv /\
    (forall id, In id (keys conv') <-> In id ROLLER_IDS \/ In id (keys conv)) /\
    (forall c id,
        get string_dec roller_mappings selection = Some c ->
        In id ROLLER_IDS -> get Z.eq_dec conv' id = Some c) /\
    (forall c id,
        get string_dec roller_mappings selection = None ->
        get string_dec roller_mappings "Default"%string = Some c ->
        In id ROLLER_IDS -> get Z.eq_dec conv' id = Some c) /\
    (forall id,
        get string_dec roller_mappings selection = None ->
        get string_dec roller_mappings "Default"%string = None ->
        In id ROLLER_IDS -> get Z.eq_dec conv' id = Some (24, 4)).
Proof.
  intros rm selection conv conv'.
  destruct (apply_roller_mapping_lookup rm selection conv)
    as [Hroll [Hframe Hkeys]].
  assert (Hpin : forall c id,
            selected_category rm selection = c ->
            In id ROLLER_IDS -> get Z.eq_dec conv' id = Some c).
  { intros c id Hc Hin. unfold conv'. rewrite (Hroll id Hin).
    rewrite roller_category_selected, Hc. reflexivity. }
  split; [reflexivity|].
  split.
  { unfold ROLLER_IDS. repeat constructor; simpl; intuition discriminate. }
  split; [exact Hroll|].
  split; [apply set_all_fixed; exact Hroll|].
  split; [exact Hframe|].
  split.
  { apply (set_all_frame (fun id => negb (is_roller id))).
    intros id Hin. apply is_roller_true in Hin. rewrite Hin. reflexivity. }
  split; [exact Hkeys|].
  split; [|split].
  - intros c id Hsel. apply Hpin. unfold selected_category.
    rewrite Hsel. reflexivity.
  - intros c id Hsel Hdef. apply Hpin. unfold selected_category.
    rewrite Hsel, Hdef. reflexivity.
  - intros id Hsel Hdef. apply Hpin. unfold selected_category.
    rewrite Hsel, Hdef. reflexivity.
Qed.

(** The statement for the selection "Fast" on a table that has it. *)
Lemma roller_override_whole_group_witness :
  get string_dec [("Fast"%string, (30, 4)); ("Default"%string, (25, 5))]
    "Fast"%string = Some (30, 4) /\
  In 41 ROLLER_IDS /\
  get Z.eq_dec
    (apply_roller_mapping
       [("Fast"%string, (30, 4)); ("Default"%string, (25, 5))] "Fast"
       [(41, (1, 1))]) 41 = Some (30, 4).
Proof.
  split; [reflexivity|]. split; [left; reflexivity|].
  apply (proj1 (proj2 (proj2 (proj2 (proj2 (proj2 (proj2 (proj2
           (roller_override_whole_group
              [("Fast"%string, (30, 4)); ("Default"%string, (25, 5))]
              "Fast"%string [(41, (1, 1))])))))))) (30, 4) 41);
    [reflexivity | left; reflexivity].
Defined.

(** The three cases on a table with "Fast" and "Default", and on one
    without "Default". *)
Lemma roller_selection_example :
  get Z.eq_dec
    (apply_roller_mapping
       [("Fast"%string, (30, 4)); ("Default"%string, (25, 5))] "Fast"
       [(41, (1, 1))]) 41 = Some (30, 4) /\
  get Z.eq_dec
    (apply_roller_mapping
       [("Fast"%string, (30, 4)); ("Default"%string, (25, 5))] "Slow"
       [(41, (1, 1))]) 588 = Some (25, 5) /\
  get Z.eq_dec
    (apply_roller_mapping [("Fast"%string, (30, 4))] "Slow" [(41, (1, 1))]) 41
  = Some (24, 4).
Proof. repeat split; reflexivity. Qed.

Lemma add_unusable_entry (acc : dict string RawCategory) e :
  unusable e = true -> add_roller_entry acc e = Ok acc.
Proof.
  destruct e as [| | | | | |fields]; try discriminate.
  unfold unusable, has_name, has_list_to, add_roller_entry, json_get.
  cbn [bind]. intros H. apply negb_true_iff, andb_false_iff in H.
  destruct (get string_dec fields "name"%string) as [n|];
    destruct (get string_dec fields "to"%string) as [[| | | | |items|]|];
    try reflexivity.
  destruct H as [H|H]; [rewrite H; reflexivity | discriminate].
Qed.

Lemma load_unusable_entries entries : forall acc : dict string RawCategory,
  forallb unusable entries = true ->
  for_each entries add_roller_entry acc = Ok acc.
Proof.
  induction entries as [|e entries IH]; intros acc H; [reflexivity|].
  cbn [forallb] in H. apply andb_true_iff in H. destruct H as [He Hrest].
  cbn [for_each]. rewrite (add_unusable_entry acc e He). cbn [bind].
  apply IH. exact Hrest.
Qed.

Lemma load_no_usable_entry rm_data :
  no_usable_entry rm_data -> load_roller_mappings rm_data = Ok [].
Proof.
  intros [->|[[doc [-> Hdoc]]|[entries [-> Hall]]]];
    unfold load_roller_mappings.
  - reflexivity.
  - rewrite Hdoc. reflexivity.
  - destruct (truthy (JList entries)); [|reflexivity].
    cbn [json_iter bind]. apply load_unusable_entries. exact Hall.
Qed.

(** C3 (as amended).  When neither roller file can be read and parsed, or
    the document counts as false (null, an empty list), or it is a list of
    entries that are all objects without a name that counts as true or
    without a list [to], the table of roller mappings is empty, the
    selected category is the fallback (24, 4) for every selection, and
    applying the override maps each of the eight roller ids to (24, 4),
    whether or not the primary groups mapped it; the other ids keep their
    entries. *)
Theorem roller_fallback_without_configuration :
  load_rm_data [None; None] = None /\
  (forall rm_data,
      no_usable_entry rm_data ->
      load_roller_mappings rm_data = Ok [] /\
      typed_roller_mappings rm_data = Ok (Some [])) /\
  (forall (selection : string) (conv : ConvMap),
      let conv' := apply_roller_mapping [] selection conv in
      roller_category [] selection = (24, 4) /\
      (forall id, In id ROLLER_IDS -> get Z.eq_dec conv' id = Some (24, 4)) /\
      (forall id, ~ In id ROLLER_IDS ->
                  get Z.eq_dec conv' id = get Z.eq_dec conv id) /\
      (forall id, In id (keys conv') <-> In id ROLLER_IDS \/ In id (keys conv))).
Proof.
  split; [reflexivity|]. split.
  - intros rm_data Hnone. pose proof (load_no_usable_entry rm_data Hnone) as H.
    split; [exact H|]. unfold typed_roller_mappings. rewrite H. reflexivity.
  - intros selection conv conv'.
    destruct (apply_roller_mapping_lookup [] selection conv)
      as [Hroll [Hframe Hkeys]].
    split; [reflexivity|]. split; [exact Hroll|]. split; [exact Hframe|].
    exact Hkeys.
Qed.

(** The loader statement at a concrete file: one entry without a name and
    one whose [to] is not a list. *)
Lemma roller_fallback_without_configuration_witness :
  no_usable_entry
    (Some (JList [JObj [("to"%string, JList [JInt 1; JInt 2])];
                  JObj [("name"%string, JStr "Fast");
                        ("to"%string, JStr "30,4")]])) /\
  load_roller_mappings
    (Some (JList [JObj [("to"%string, JList [JInt 1; JInt 2])];
                  JObj [("name"%string, JStr "Fast");
                        ("to"%string, JStr "30,4")]])) = Ok [].
Proof.
  assert (H : no_usable_entry
                (Some (JList [JObj [("to"%string, JList [JInt 1; JInt 2])];
                              JObj [("name"%string, JStr "Fast");
                                    ("to"%string, JStr "30,4")]]))).
  { right. right. eexists. split; reflexivity. }
  split; [exact H|].
  exact (proj1 (proj1 (proj2 roller_fallback_without_configuration) _ H)).
Defined.

(** C3, the claim as written, fails: without a roller configuration the
    override still writes the fallback category.  Id 41, which its group
    maps to (1, 1), ends at (24, 4), and the seven roller ids that no
    group maps get entries. *)
Lemma roller_ids_overwritten_without_configuration :
  get Z.eq_dec (load_conversion_map [([41; 7], (1, 1))]) 41 = Some (1, 1) /\
  get Z.eq_dec (startup_conversion_map [([41; 7], (1, 1))] []) 41
  = Some (24, 4) /\
  keys (load_conversion_map [([41; 7], (1, 1))]) = [41; 7] /\
  keys (startup_conversion_map [([41; 7], (1, 1))] [])
  = [41; 7; 42; 43; 44; 579; 580; 587; 588] /\
  ~ (forall selection conv id,
        In id ROLLER_IDS ->
        get Z.eq_dec (apply_roller_mapping [] selection conv) id
        = get Z.eq_dec conv id).
Proof.
  split; [reflexivity|]. split; [reflexivity|]. split; [reflexivity|].
  split; [reflexivity|].
  intros H.
  specialize (H "Default"%string (load_conversion_map [([41; 7], (1, 1))]) 41
                (or_introl eq_refl)).
  vm_compute in H. discriminate.
Qed.

(** ** The row parser *)











(** ** Runs of the model on small inputs *)

(** What [int] takes: white space around the literal but not the
    separators 28..31 that [strip] removes, one underscore between digits,
    a sign, and at most 4300 digits. *)
Lemma py_int_examples :
  py_int " 12 " = Some 12 /\
  py_int "-1_000" = Some (-1000) /\
  py_int "1__0" = None /\
  py_int "2.5" = None /\
  py_int (String (ascii_of_nat 28) "1") = None /\
  strip (String (ascii_of_nat 28) "1") = "1"%string /\
  py_int (string_of_list_ascii (repeat "1"%char 4300)) <> None /\
  py_int (string_of_list_ascii (repeat "1"%char 4301)) = None.
Proof.
  do 6 (split; [reflexivity|]). split.
  - vm_compute. discriminate.
  - vm_compute. reflexivity.
Qed.

(** A line with a separator character in a token is dropped, although
    stripping the token would leave an integer. *)
Lemma parser_separator_example :
  parse_lines
    [("1,2,3," ++ String (ascii_of_nat 28) "4,5")%string; "1,2,3,4,5"%string]
  = [[1; 2; 3; 4; 5]].
Proof. reflexivity. Qed.

(** The parser on a file with a header, a marker in capitals, rows with
    trailing and doubled commas, signs and spaces, and lines that are
    dropped: too few tokens, a token that is not an integer, no comma. *)
Lemma parser_example :
  parse_lines
    ["title"; "1,2,3,4,5,,"; " 1 , -2,+3,1_0,007 "; "1,2,3,4"; "DATA=5";
     "12345"; "1,,2,3,4,5"; "1,2,3,4,5x"; ""; "6,7,8,9,10"]%string
  = [[1; 2; 3; 4; 5]; [1; -2; 3; 10; 7]; [1; 2; 3; 4; 5]; [6; 7; 8; 9; 10]].
Proof. reflexivity. Qed.

(** With the preset disabled and no id of the table in the grid, the run
    ends in the message that no id matched. *)
Lemma empty_result_with_preset_disabled :
  run_processing (example_fs ["9,9,9,9,9"%string]) [(1, (0, 0))]
    (example_gui "1" false) = Ok [MessageBox NoMatchingIdsInfo].
Proof. reflexivity. Qed.

(** Equal x, different y: the order of the fold is kept.  Id 2 comes first
    in the table, so its category (3, 9) comes before (3, 1). *)
Lemma stable_order_example :
  generate_geobuffer_list
    [(2, (3, 9)); (1, (3, 1)); (4, (0, 7)); (5, (3, 9))]
    [(2, 4); (1, 6); (4, 1); (5, 2)]
  = [(0, 7, 1); (3, 9, 6); (3, 1, 6)].
Proof. reflexivity. Qed.

(** * Further properties of the code *)

(** ** The window analyzer, for any window size *)

(** The table of [analyze_chunks] in terms of the slices the code takes,
    with no condition on the window size. *)
Lemma analyze_chunks_slices rows W conv :
  exists table,
    analyze_chunks rows W conv = Ok table /\
    (forall id, In id (keys table) <-> In id (keys conv)) /\
    (forall id, In id (keys conv) ->
       get Z.eq_dec table id =
       Some (max_list
               (map (fun s => occurrences id (py_slice rows s (s + W)))
                  (py_range0 (Z.of_nat (List.length rows) - W + 1))))).
Proof.
  destruct (zero_counts_spec conv) as [_ [Hkeys Hzero]].
  destruct (analyze_loop rows W conv
              (py_range0 (Z.of_nat (List.length rows) - W + 1))
              (zero_counts conv)) as [table [Hrun [Hk Hget]]].
  - exact Hkeys.
  - intros id v Hv.
    assert (Hin : In id (keys conv)) by (apply Hkeys; eapply get_Some_keys; eauto).
    rewrite (Hzero id Hin) in Hv. inversion Hv. lia.
  - exists table. split; [exact Hrun|]. split.
    + intros id. rewrite Hk. apply Hkeys.
    + intros id Hin. rewrite Hget, (Hzero id Hin). cbn [option_map]. f_equal.
      rewrite fold_left_max by lia. apply Z.max_r. apply max_list_nonneg.
Qed.

Lemma cnt_app l1 l2 id : cnt (l1 ++ l2) id = cnt l1 id + cnt l2 id.
Proof. unfold cnt. rewrite count_occ_app. lia. Qed.

Lemma occurrences_app b1 b2 id :
  occurrences id (b1 ++ b2) = occurrences id b1 + occurrences id b2.
Proof. unfold occurrences. rewrite concat_app. apply cnt_app. Qed.

Lemma occurrences_nonneg id b : 0 <= occurrences id b.
Proof. apply cnt_nonneg. Qed.

Lemma occurrences_firstn id n b : occurrences id (firstn n b) <= occurrences id b.
Proof.
  rewrite <- (firstn_skipn n b) at 2. rewrite occurrences_app.
  pose proof (occurrences_nonneg id (skipn n b)). lia.
Qed.

Lemma occurrences_skipn id n b : occurrences id (skipn n b) <= occurrences id b.
Proof.
  rewrite <- (firstn_skipn n b) at 2. rewrite occurrences_app.
  pose proof (occurrences_nonneg id (firstn n b)). lia.
Qed.

Lemma occurrences_slice id (rows : list (list Z)) a b :
  occurrences id (py_slice rows a b) <= occurrences id rows.
Proof.
  unfold py_slice.
  etransitivity; [apply occurrences_firstn | apply occurrences_skipn].
Qed.

Lemma max_list_le l bound :
  0 <= bound -> (forall x, In x l -> x <= bound) -> max_list l <= bound.
Proof.
  intros Hb. induction l as [|a l IH]; intros Hall.
  - exact Hb.
  - rewrite max_list_cons. apply Z.max_lub.
    + apply Hall. left. reflexivity.
    + apply IH. intros x Hx. apply Hall. right. exact Hx.
Qed.

Lemma max_list_ge l x : In x l -> x <= max_list l.
Proof.
  induction l as [|a l IH]; intros Hin; [contradiction|].
  rewrite max_list_cons. destruct Hin as [->|Hin]; [lia|].
  specialize (IH Hin). lia.
Qed.

(** Whatever the window size, negative ones included, [analyze_chunks]
    raises nothing, its table has the ids of the mapping table, and the
    count of an id lies between 0 and the number of its occurrences in the
    whole grid; an id that the grid does not hold has the count 0. *)
Theorem analyze_chunks_counts_bounded :
  forall (rows : list (list Z)) (W : Z) (conv : ConvMap),
  exists table,
    analyze_chunks rows W conv = Ok table /\
    (forall id, In id (keys table) <-> In id (keys conv)) /\
    (forall id, In id (keys conv) ->
       exists v, get Z.eq_dec table id = Some v /\
                 0 <= v <= occurrences id rows) /\
    (forall id, In id (keys conv) -> occurrences id rows = 0 ->
                get Z.eq_dec table id = Some 0).
Proof.
  intros rows W conv.
  destruct (analyze_chunks_slices rows W conv) as [table [Hrun [Hkeys Hget]]].
  assert (Hbound : forall id, In id (keys conv) ->
            exists v, get Z.eq_dec table id = Some v /\
                      0 <= v <= occurrences id rows).
  { intros id Hin. eexists. split; [apply Hget; exact Hin|]. split.
    - apply max_list_nonneg.
    - apply max_list_le; [apply occurrences_nonneg|].
      intros x Hx. apply in_map_iff in Hx. destruct Hx as [s [<- _]].
      apply occurrences_slice. }
  exists table. split; [exact Hrun|]. split; [exact Hkeys|].
  split; [exact Hbound|].
  intros id Hin Hzero. destruct (Hbound id Hin) as [v [Hv Hrange]].
  rewrite Hv. f_equal. lia.
Qed.

Lemma py_slice_all {A : Type} (l : list A) :
  py_slice l 0 (0 + Z.of_nat (List.length l)) = l.
Proof.
  unfold py_slice, slice_bound. cbn [Z.ltb Z.compare Z.add].
  replace (Z.of_nat (List.length l) <? 0) with false
    by (symmetry; apply Z.ltb_ge; lia).
  rewrite Z.min_id, Z.min_l by lia. rewrite Z.sub_0_r, Nat2Z.id.
  cbn [Z.to_nat skipn]. apply firstn_all.
Qed.

(** A window as long as the grid: there is one window, the whole grid, and
    the count of each id is the number of its occurrences in the grid. *)
Theorem analyze_chunks_whole_grid_window :
  forall (rows : list (list Z)) (conv : ConvMap),
  exists table,
    analyze_chunks rows (Z.of_nat (List.length rows)) conv = Ok table /\
    forall id, In id (keys conv) ->
               get Z.eq_dec table id = Some (occurrences id rows).
Proof.
  intros rows conv.
  destruct (analyze_chunks_slices rows (Z.of_nat (List.length rows)) conv)
    as [table [Hrun [_ Hget]]].
  exists table. split; [exact Hrun|].
  intros id Hin. rewrite (Hget id Hin). f_equal.
  replace (Z.of_nat (List.length rows) - Z.of_nat (List.length rows) + 1)
    with 1 by lia.
  change (py_range0 1) with [0]. cbn [map]. rewrite py_slice_all.
  rewrite max_list_cons. change (max_list []) with 0.
  pose proof (occurrences_nonneg id rows). lia.
Qed.

Lemma for_each_ext {A S : Type} (body1 body2 : S -> A -> pyres S) xs :
  (forall s x, In x xs -> body1 s x = body2 s x) ->
  forall s, for_each xs body1 s = for_each xs body2 s.
Proof.
  induction xs as [|x xs IH]; intros Hext s; [reflexivity|].
  cbn [for_each]. rewrite (Hext s x (or_introl eq_refl)).
  destruct (body2 s x) as [s'|e]; cbn [bind]; [|reflexivity].
  apply IH. intros s0 x0 Hin. apply Hext. right. exact Hin.
Qed.

Lemma count_row_filter conv row : forall freq,
  count_row conv freq (filter (fun item => mem Z.eq_dec item conv) row) =
  count_row conv freq row.
Proof.
  unfold count_row. induction row as [|a row IH]; intros freq; [reflexivity|].
  cbn [filter fold_left]. destruct (mem Z.eq_dec a conv) eqn:Hm.
  - cbn [fold_left]. apply IH.
  - rewrite IH. unfold count_item at 3. rewrite Hm. reflexivity.
Qed.

Lemma window_freq_filter conv window :
  window_freq conv (map (filter (fun item => mem Z.eq_dec item conv)) window) =
  window_freq conv window.
Proof.
  unfold window_freq. generalize (@nil (Z * Z)).
  induction window as [|row window IH]; intros freq; [reflexivity|].
  cbn [map fold_left]. rewrite count_row_filter. apply IH.
Qed.

Lemma py_slice_map {A B : Type} (f : A -> B) (l : list A) a b :
  py_slice (map f l) a b = map f (py_slice l a b).
Proof.
  unfold py_slice. rewrite length_map, skipn_map, firstn_map. reflexivity.
Qed.

(** Cells whose id is not in the mapping table play no part: the table is
    the one of the grid in which every such cell has been removed from its
    row. *)
Theorem analyze_chunks_ignores_unmapped_cells :
  forall (rows : list (list Z)) (W : Z) (conv : ConvMap),
    analyze_chunks
      (map (filter (fun item => mem Z.eq_dec item conv)) rows) W conv =
    analyze_chunks rows W conv.
Proof.
  intros rows W conv. unfold analyze_chunks. rewrite length_map.
  apply for_each_ext. intros mc start _. unfold analyze_window.
  rewrite py_slice_map, window_freq_filter. reflexivity.
Qed.

Lemma firstn_add {A : Type} n m : forall l : list A,
  firstn (n + m) l = firstn n l ++ firstn m (skipn n l).
Proof.
  induction n as [|n IH]; intros l; [reflexivity|].
  destruct l as [|a l]; cbn [Nat.add firstn skipn app].
  - rewrite firstn_nil. reflexivity.
  - rewrite IH. reflexivity.
Qed.

(** A block that lies inside another holds no more occurrences. *)
Lemma occurrences_block_contained id (rows : list (list Z)) s W s' W' :
  (s' <= s)%nat -> (s + W <= s' + W')%nat ->
  occurrences id (firstn W (skipn s rows)) <=
  occurrences id (firstn W' (skipn s' rows)).
Proof.
  intros Hs He.
  replace s with ((s - s') + s')%nat by lia.
  rewrite <- skipn_skipn.
  set (l := skipn s' rows). set (d := (s - s')%nat).
  replace W' with (d + (W + (W' - d - W)))%nat by lia.
  rewrite firstn_add, occurrences_app, firstn_add, occurrences_app.
  pose proof (occurrences_nonneg id (firstn d l)).
  pose proof (occurrences_nonneg id
                (firstn (W' - d - W) (skipn W (skipn d l)))).
  lia.
Qed.

Lemma in_py_range0 n s : In s (py_range0 n) <-> 0 <= s < n.
Proof.
  unfold py_range0. rewrite in_map_iff. split.
  - intros [k [<- Hk]]. apply in_seq in Hk. lia.
  - intros Hs. exists (Z.to_nat s). split; [lia|]. apply in_seq. lia.
Qed.

Lemma max_list_mono l1 l2 :
  (forall x, In x l1 -> exists y, In y l2 /\ x <= y) ->
  max_list l1 <= max_list l2.
Proof.
  intros H. apply max_list_le; [apply max_list_nonneg|].
  intros x Hx. destruct (H x Hx) as [y [Hy Hxy]].
  pose proof (max_list_ge l2 y Hy). lia.
Qed.

(** Between 0 and the number of rows, a longer window never gives a
    smaller count. *)
Theorem analyze_chunks_monotone_in_window :
  forall (rows : list (list Z)) (W W' : Z) (conv : ConvMap),
    0 <= W -> W <= W' -> W' <= Z.of_nat (List.length rows) ->
    exists table table',
      analyze_chunks rows W conv = Ok table /\
      analyze_chunks rows W' conv = Ok table' /\
      forall id, In id (keys conv) ->
        exists v v', get Z.eq_dec table id = Some v /\
                     get Z.eq_dec table' id = Some v' /\
                     v <= v'.
Proof.
  intros rows W W' conv HW HWW HL.
  destruct (analyze_chunks_slices rows W conv) as [t [Hrun [_ Hget]]].
  destruct (analyze_chunks_slices rows W' conv) as [t' [Hrun' [_ Hget']]].
  exists t, t'. split; [exact Hrun|]. split; [exact Hrun'|].
  intros id Hin. eexists. eexists.
  split; [apply Hget; exact Hin|]. split; [apply Hget'; exact Hin|].
  set (L := Z.of_nat (List.length rows)) in *.
  apply max_list_mono. intros x Hx.
  apply in_map_iff in Hx. destruct Hx as [s [<- Hs]].
  apply in_py_range0 in Hs.
  exists (occurrences id
            (py_slice rows (Z.min s (L - W')) (Z.min s (L - W') + W'))).
  split.
  - apply in_map_iff. exists (Z.min s (L - W')). split; [reflexivity|].
    apply in_py_range0. lia.
  - rewrite !py_slice_block by lia. unfold spec_block.
    apply occurrences_block_contained; lia.
Qed.

(** The statement on the grid of the worked example, windows of 1 and 2. *)
Lemma analyze_chunks_monotone_in_window_witness :
  0 <= 1 /\ 1 <= 2 /\ 2 <= 3 /\
  exists table table',
    analyze_chunks [[1;1;1;1;1]; [2;2;2;2;2]; [1;1;1;1;1]] 1
      [(1, (0, 0)); (2, (1, 0))] = Ok table /\
    analyze_chunks [[1;1;1;1;1]; [2;2;2;2;2]; [1;1;1;1;1]] 2
      [(1, (0, 0)); (2, (1, 0))] = Ok table' /\
    forall id, In id [1; 2] ->
      exists v v', get Z.eq_dec table id = Some v /\
                   get Z.eq_dec table' id = Some v' /\
                   v <= v'.
Proof.
  split; [lia|]. split; [lia|]. split; [lia|].
  apply (analyze_chunks_monotone_in_window
           [[1;1;1;1;1]; [2;2;2;2;2]; [1;1;1;1;1]] 1 2
           [(1, (0, 0)); (2, (1, 0))]); simpl; lia.
Defined.

(** ** The aggregator: what is kept and what is read *)

Lemma sum_list_cons a l : sum_list (a :: l) = a + sum_list l.
Proof. reflexivity. Qed.

Lemma counted_total_cons id cat (l : ConvMap) mc :
  counted_total ((id, cat) :: l) mc =
  Z.max 0 (get_default Z.eq_dec mc id 0) + counted_total l mc.
Proof. reflexivity. Qed.

Lemma sum_values_set (d : dict Category Z) k c :
  sum_list (map snd (set cat_eq_dec k (get_default cat_eq_dec d k 0 + c) d)) =
  sum_list (map snd d) + c.
Proof.
  induction d as [|[k' v'] d IH].
  - cbn. lia.
  - unfold get_default in *. cbn [set get].
    destruct (cat_eq_dec k k') as [->|Hne]; cbn [map snd].
    + rewrite !sum_list_cons. lia.
    + rewrite !sum_list_cons, IH. lia.
Qed.

Lemma fold_counts_sum mc (l : ConvMap) : forall g,
  sum_list (map snd (fold_left (add_count mc) l g)) =
  sum_list (map snd g) + counted_total l mc.
Proof.
  induction l as [|[id cat] l IH]; intros g.
  - cbn [fold_left]. change (counted_total [] mc) with 0. lia.
  - cbn [fold_left]. rewrite IH, add_count_unfold, counted_total_cons.
    destruct (get_default Z.eq_dec mc id 0 >? 0) eqn:E.
    + rewrite sum_values_set. apply Z.gtb_lt in E. lia.
    + rewrite Z.gtb_ltb in E. apply Z.ltb_ge in E. lia.
Qed.

Lemma sum_list_perm l l' : Permutation l l' -> sum_list l = sum_list l'.
Proof.
  induction 1 as [|x l l' _ IH|x y l|l l' l'' _ IH1 _ IH2];
    rewrite ?sum_list_cons; lia.
Qed.

Lemma geo_entries_z (d : dict Category Z) :
  map entry_z (geo_entries d) = map snd d.
Proof.
  unfold geo_entries, items. rewrite map_map.
  apply map_ext. intros [[x y] z]. reflexivity.
Qed.

(** Nothing is lost when the counts are merged: the counts of the output
    add up to the sum of the max counts above zero of the mapped ids. *)
Theorem aggregator_conserves_counts :
  forall (conv : ConvMap) (max_counts : dict Z Z),
    total_z (generate_geobuffer_list conv max_counts) =
    counted_total conv max_counts.
Proof.
  intros conv mc. unfold total_z, generate_geobuffer_list.
  rewrite (sum_list_perm _ _
             (Permutation_map entry_z (sort_by_perm entry_x _))).
  rewrite geo_entries_z. unfold fold_counts, items.
  rewrite fold_counts_sum. change (sum_list (map snd [])) with 0. lia.
Qed.

Lemma set_not_nil {K V : Type} (dec : forall a b : K, {a = b} + {a <> b})
  (k : K) (v : V) (d : dict K V) : set dec k v d <> [].
Proof.
  destruct d as [|[k' v'] d]; cbn [set]; [discriminate|].
  destruct (dec k k'); discriminate.
Qed.

Lemma fold_counts_keeps_entries mc (l : ConvMap) : forall g,
  g <> [] -> fold_left (add_count mc) l g <> [].
Proof.
  induction l as [|[id cat] l IH]; intros g Hg; [exact Hg|].
  cbn [fold_left]. apply IH. rewrite add_count_unfold.
  destruct (_ >? 0); [apply set_not_nil | exact Hg].
Qed.

Lemma fold_counts_nil_iff mc (l : ConvMap) :
  fold_left (add_count mc) l [] = [] <->
  (forall id cat, In (id, cat) l -> get_default Z.eq_dec mc id 0 <= 0).
Proof.
  induction l as [|[id cat] l IH].
  - split; [intros _ id cat [] | reflexivity].
  - cbn [fold_left]. rewrite add_count_unfold.
    destruct (get_default Z.eq_dec mc id 0 >? 0) eqn:E.
    + split.
      * intros H. exfalso. revert H. apply fold_counts_keeps_entries.
        apply set_not_nil.
      * intros H. apply Z.gtb_lt in E.
        specialize (H id cat (or_introl eq_refl)). lia.
    + rewrite IH. rewrite Z.gtb_ltb in E. apply Z.ltb_ge in E. split.
      * intros H id' cat' [Heq|Hin]; [inversion Heq; subst; exact E|].
        eapply H; eauto.
      * intros H id' cat' Hin. apply (H id' cat'). right. exact Hin.
Qed.

Lemma generate_nil_iff_fold conv mc :
  generate_geobuffer_list conv mc = [] <-> fold_counts conv mc = [].
Proof.
  unfold generate_geobuffer_list. split; intros H.
  - apply (f_equal (@List.length _)) in H.
    rewrite (Permutation_length (sort_by_perm entry_x _)) in H.
    unfold geo_entries, items in H. rewrite length_map in H.
    destruct (fold_counts conv mc); [reflexivity | discriminate].
  - rewrite H. reflexivity.
Qed.

Lemma generate_nil conv mc :
  (forall id cat, In (id, cat) conv -> get_default Z.eq_dec mc id 0 <= 0) ->
  generate_geobuffer_list conv mc = [].
Proof.
  intros H. apply generate_nil_iff_fold. unfold fold_counts, items.
  apply fold_counts_nil_iff. exact H.
Qed.

(** The output is empty exactly when no mapped id has a max count above
    zero; ids that the max-count table lacks count as zero, so that an
    empty table or an empty mapping gives the empty output. *)
Theorem aggregator_empty_iff_no_count :
  forall (conv : ConvMap) (max_counts : dict Z Z),
    (generate_geobuffer_list conv max_counts = [] <->
     forall id cat, In (id, cat) conv ->
                    get_default Z.eq_dec max_counts id 0 <= 0) /\
    generate_geobuffer_list conv [] = [] /\
    generate_geobuffer_list [] max_counts = [].
Proof.
  intros conv mc. split; [|split].
  - rewrite generate_nil_iff_fold. unfold fold_counts, items.
    apply fold_counts_nil_iff.
  - apply generate_nil. intros id cat _. cbn. lia.
  - reflexivity.
Qed.

Lemma fold_left_ext_in {A B : Type} (f g : A -> B -> A) (l : list B) :
  (forall a x, In x l -> f a x = g a x) ->
  forall a, fold_left f l a = fold_left g l a.
Proof.
  induction l as [|x l IH]; intros H a; [reflexivity|].
  cbn [fold_left]. rewrite (H a x (or_introl eq_refl)).
  apply IH. intros a' x' Hin. apply H. right. exact Hin.
Qed.

(** The aggregator reads the max-count table only at the mapped ids, with
    0 for a missing id: two tables that agree there give the same output. *)
Theorem aggregator_reads_mapped_ids_only :
  forall (conv : ConvMap) (mc mc' : dict Z Z),
    (forall id, In id (keys conv) ->
                get_default Z.eq_dec mc id 0 = get_default Z.eq_dec mc' id 0) ->
    generate_geobuffer_list conv mc = generate_geobuffer_list conv mc'.
Proof.
  intros conv mc mc' Hagree. unfold generate_geobuffer_list, fold_counts, items.
  f_equal. f_equal. apply fold_left_ext_in.
  intros g [id cat] Hin. rewrite !add_count_unfold.
  rewrite (Hagree id); [reflexivity|].
  change id with (fst (id, cat)). apply in_map. exact Hin.
Qed.

(** The statement for a table with an id that is not mapped and a table
    without the id whose count is zero. *)
Lemma aggregator_reads_mapped_ids_only_witness :
  generate_geobuffer_list [(1, (0, 0)); (2, (1, 0))] [(1, 3); (2, 0); (9, 7)] =
  generate_geobuffer_list [(1, (0, 0)); (2, (1, 0))] [(1, 3)].
Proof.
  apply (aggregator_reads_mapped_ids_only
           [(1, (0, 0)); (2, (1, 0))] [(1, 3); (2, 0); (9, 7)] [(1, 3)]).
  intros id [<-|[<-|[]]]; reflexivity.
Defined.

(** ** The pipeline: empty results, exceptions, writes *)

Lemma run_processing_no_count fs conv gui W lines :
  nonempty (input_file_var gui) = true ->
  nonempty (output_file_var gui) = true ->
  py_int (chunk_size_var gui) = Some W ->
  fs_readlines fs (input_file_var gui) = Some lines ->
  parse_lines lines <> [] ->
  (forall table id,
      analyze_chunks (parse_lines lines) W conv = Ok table ->
      In id (keys conv) -> get Z.eq_dec table id = Some 0) ->
  run_processing fs conv gui =
  Ok (report fs (output_file_var gui)
        (inject_preset (add_geobuffer0_var gui) [])).
Proof.
  intros Hin Hout HW Hread Hrows Hzero.
  destruct (run_processing_analysis fs conv gui W lines Hin Hout HW Hread Hrows)
    as [table [Htable Hrun]].
  rewrite Hrun. rewrite generate_nil; [reflexivity|].
  intros id cat Hmap. unfold get_default.
  rewrite (Hzero table id Htable); [lia|].
  change id with (fst (id, cat)). apply in_map. exact Hmap.
Qed.

Lemma report_preset_or_nothing fs path flag :
  report fs path (inject_preset flag []) =
  if flag
  then if fs_writable fs path
       then [FileWritten path (map format_entry PRESET_GEOBUFFER0);
             MessageBox (SuccessInfo path)]
       else write_failure_events fs path (map format_entry PRESET_GEOBUFFER0)
  else [MessageBox NoMatchingIdsInfo].
Proof.
  destruct flag; [|reflexivity].
  unfold inject_preset. rewrite app_nil_r.
  unfold PRESET_GEOBUFFER0 at 1. rewrite report_nonempty. reflexivity.
Qed.

(** A window longer than the grid finds nothing: with the preset disabled
    the run ends in the message that no id matched, with the preset
    enabled it writes the preset entries alone. *)
Theorem oversized_window_finds_nothing :
  forall (fs : FileSystem) (conv : ConvMap) (gui : Gui) (W : Z)
         (lines : list string),
    nonempty (input_file_var gui) = true ->
    nonempty (output_file_var gui) = true ->
    py_int (chunk_size_var gui) = Some W ->
    fs_readlines fs (input_file_var gui) = Some lines ->
    parse_lines lines <> [] ->
    Z.of_nat (List.length (parse_lines lines)) < W ->
    run_processing fs conv gui =
    Ok (if add_geobuffer0_var gui
        then if fs_writable fs (output_file_var gui)
             then [FileWritten (output_file_var gui)
                     (map format_entry PRESET_GEOBUFFER0);
                   MessageBox (SuccessInfo (output_file_var gui))]
             else write_failure_events fs (output_file_var gui)
                    (map format_entry PRESET_GEOBUFFER0)
        else [MessageBox NoMatchingIdsInfo]).
Proof.
  intros fs conv gui W lines Hin Hout HW Hread Hrows Hlong.
  rewrite (run_processing_no_count fs conv gui W lines) by
    (try assumption;
     intros table id Htable Hid;
     destruct (analyze_chunks_slices (parse_lines lines) W conv)
       as [t [Ht [_ Hget]]];
     rewrite Ht in Htable; inversion Htable; subst t;
     rewrite (Hget id Hid); f_equal; unfold py_range0;
     replace (Z.to_nat (Z.of_nat (List.length (parse_lines lines)) - W + 1))
       with 0%nat by lia;
     reflexivity).
  rewrite report_preset_or_nothing. reflexivity.
Qed.

(** The statement at a concrete run: one row, a window of two rows. *)
Lemma oversized_window_finds_nothing_witness :
  run_processing (example_fs ["1,1,1,1,1"%string]) [(1, (0, 0))]
    (example_gui "2" false) = Ok [MessageBox NoMatchingIdsInfo].
Proof.
  apply (oversized_window_finds_nothing
           (example_fs ["1,1,1,1,1"%string]) [(1, (0, 0))]
           (example_gui "2" false) 2 ["1,1,1,1,1"%string]);
    try reflexivity.
  discriminate.
Defined.

(** A grid that holds no mapped id gives the same outcome whatever the
    window size. *)
Theorem unmapped_grid_finds_nothing :
  forall (fs : FileSystem) (conv : ConvMap) (gui : Gui) (W : Z)
         (lines : list string),
    nonempty (input_file_var gui) = true ->
    nonempty (output_file_var gui) = true ->
    py_int (chunk_size_var gui) = Some W ->
    fs_readlines fs (input_file_var gui) = Some lines ->
    parse_lines lines <> [] ->
    (forall id, In id (keys conv) -> occurrences id (parse_lines lines) = 0) ->
    run_processing fs conv gui =
    Ok (if add_geobuffer0_var gui
        then if fs_writable fs (output_file_var gui)
             then [FileWritten (output_file_var gui)
                     (map format_entry PRESET_GEOBUFFER0);
                   MessageBox (SuccessInfo (output_file_var gui))]
             else write_failure_events fs (output_file_var gui)
                    (map format_entry PRESET_GEOBUFFER0)
        else [MessageBox NoMatchingIdsInfo]).
Proof.
  intros fs conv gui W lines Hin Hout HW Hread Hrows Hnone.
  rewrite (run_processing_no_count fs conv gui W lines); try assumption.
  - rewrite report_preset_or_nothing. reflexivity.
  - intros table id Htable Hid.
    destruct (analyze_chunks_slices (parse_lines lines) W conv)
      as [t [Ht [_ Hget]]].
    rewrite Ht in Htable. inversion Htable; subst t.
    rewrite (Hget id Hid). f_equal.
    apply Z.le_antisymm; [|apply max_list_nonneg].
    apply max_list_le; [lia|].
    intros x Hx. apply in_map_iff in Hx. destruct Hx as [s [<- _]].
    rewrite <- (Hnone id Hid). apply occurrences_slice.
Qed.

(** The statement at a concrete run: the grid holds 9s, the table maps 1. *)
Lemma unmapped_grid_finds_nothing_witness :
  run_processing (example_fs ["9,9,9,9,9"; "9,9,9,9,9"]%string) [(1, (0, 0))]
    (example_gui "1" false) = Ok [MessageBox NoMatchingIdsInfo].
Proof.
  apply (unmapped_grid_finds_nothing
           (example_fs ["9,9,9,9,9"; "9,9,9,9,9"]%string) [(1, (0, 0))]
           (example_gui "1" false) 1 ["9,9,9,9,9"; "9,9,9,9,9"]%string);
    try reflexivity.
  - discriminate.
  - intros id [<-|[]]. reflexivity.
Defined.


(** The events of a run that returns: one message, or what the writer
    does with the final list, which is not empty. *)
Lemma run_events_shape fs conv gui events :
  run_processing fs conv gui = Ok events ->
  (exists m, events = [MessageBox m] /\
             (forall path, m <> SuccessInfo path) /\ m <> ErrWritingOutput) \/
  (exists W lines table,
      py_int (chunk_size_var gui) = Some W /\
      fs_readlines fs (input_file_var gui) = Some lines /\
      analyze_chunks (parse_lines lines) W conv = Ok table /\
      inject_preset (add_geobuffer0_var gui)
        (generate_geobuffer_list conv table) <> [] /\
      events =
      if fs_writable fs (output_file_var gui)
      then [FileWritten (output_file_var gui)
              (map format_entry
                 (inject_preset (add_geobuffer0_var gui)
                    (generate_geobuffer_list conv table)));
            MessageBox (SuccessInfo (output_file_var gui))]
      else write_failure_events fs (output_file_var gui)
             (map format_entry
                (inject_preset (add_geobuffer0_var gui)
                   (generate_geobuffer_list conv table)))).
Proof.
  intros Hrun. pose proof (run_processing_cases fs conv gui) as Hc.
  rewrite Hrun in Hc.
  inversion Hc as [H1 He|H1 H2 He|H1 H2 H3 He|W H1 H2 H3 H4 He
                   |W lines H1 H2 H3 H4 H5 He
                   |W lines table H1 H2 H3 H4 H5 H6 He];
    try (left; eexists; split; [reflexivity | split; discriminate]).
  destruct (inject_preset (add_geobuffer0_var gui)
              (generate_geobuffer_list conv table)) as [|entry l] eqn:Hfinal.
  - left. eexists. split; [reflexivity | split; discriminate].
  - right. exists W, lines, table. rewrite Hfinal.
    repeat (split; [assumption || discriminate|]).
    apply report_nonempty.
Qed.

(** A run that returns touches at most one file, the one at the output
    path, and never for an empty list.  It shows the success message
    exactly when [write_output] has written every line, and these are the
    lines of the computed entries, after the preset when it is enabled.
    When the write fails the run shows the write error and no success
    message, and the file, if it had been opened, is left with the
    beginning of that text that had reached it. *)
Theorem run_writes_only_on_success :
  forall (fs : FileSystem) (conv : ConvMap) (gui : Gui) (events : list Event),
    run_processing fs conv gui = Ok events ->
    (forall path,
        In (MessageBox (SuccessInfo path)) events <->
        exists content, In (FileWritten path content) events) /\
    (forall path content,
        In (FileWritten path content) events ->
        path = output_file_var gui /\
        content <> [] /\
        events = [FileWritten path content; MessageBox (SuccessInfo path)] /\
        fs_writable fs path = true /\
        exists W lines table,
          py_int (chunk_size_var gui) = Some W /\
          fs_readlines fs (input_file_var gui) = Some lines /\
          analyze_chunks (parse_lines lines) W conv = Ok table /\
          content =
          map format_entry
            (inject_preset (add_geobuffer0_var gui)
               (generate_geobuffer_list conv table))) /\
    (forall path text,
        In (FilePartial path text) events ->
        path = output_file_var gui /\
        events = [FilePartial path text; MessageBox ErrWritingOutput] /\
        fs_writable fs path = false /\
        exists W lines table n,
          py_int (chunk_size_var gui) = Some W /\
          fs_readlines fs (input_file_var gui) = Some lines /\
          analyze_chunks (parse_lines lines) W conv = Ok table /\
          fs_write_fault fs path = Some n /\
          text =
          substring 0 n
            (String.concat ""
               (map format_entry
                  (inject_preset (add_geobuffer0_var gui)
                     (generate_geobuffer_list conv table))))) /\
    (In (MessageBox ErrWritingOutput) events <->
     fs_writable fs (output_file_var gui) = false /\
     exists W lines table,
       py_int (chunk_size_var gui) = Some W /\
       fs_readlines fs (input_file_var gui) = Some lines /\
       analyze_chunks (parse_lines lines) W conv = Ok table /\
       nonempty (input_file_var gui) = true /\
       nonempty (output_file_var gui) = true /\
       parse_lines lines <> [] /\
       inject_preset (add_geobuffer0_var gui)
         (generate_geobuffer_list conv table) <> []).
Proof.
  intros fs conv gui events Hrun.
  assert (Herr : In (MessageBox ErrWritingOutput) events <->
            fs_writable fs (output_file_var gui) = false /\
            exists W lines table,
              py_int (chunk_size_var gui) = Some W /\
              fs_readlines fs (input_file_var gui) = Some lines /\
              analyze_chunks (parse_lines lines) W conv = Ok table /\
              nonempty (input_file_var gui) = true /\
              nonempty (output_file_var gui) = true /\
              parse_lines lines <> [] /\
              inject_preset (add_geobuffer0_var gui)
                (generate_geobuffer_list conv table) <> []).
  { split.
    - intros Hin. pose proof (run_processing_cases fs conv gui) as Hc.
      rewrite Hrun in Hc.
      inversion Hc as [H1 He|H1 H2 He|H1 H2 H3 He|W H1 H2 H3 H4 He
                       |W lines H1 H2 H3 H4 H5 He
                       |W lines table H1 H2 H3 H4 H5 H6 He];
        subst events;
        try (destruct Hin as [Hx|[]]; discriminate).
      destruct (inject_preset (add_geobuffer0_var gui)
                  (generate_geobuffer_list conv table)) as [|entry l] eqn:Hfinal.
      + destruct Hin as [Hx|[]]. discriminate.
      + rewrite report_nonempty in Hin.
        destruct (fs_writable fs (output_file_var gui)).
        * destruct Hin as [Hx|[Hx|[]]]; discriminate.
        * split; [reflexivity|]. exists W, lines, table. rewrite Hfinal.
          repeat (split; [assumption|]). discriminate.
    - intros [Hwr [W [lines [table [HW [Hread [Htable [Hin [Hout [Hrows Hne]]]]]]]]]].
      destruct (run_processing_analysis fs conv gui W lines Hin Hout HW Hread Hrows)
        as [table' [Htable' Hrun']].
      rewrite Htable in Htable'. inversion Htable'; subst table'.
      rewrite Hrun in Hrun'. inversion Hrun'; subst events.
      destruct (inject_preset (add_geobuffer0_var gui)
                  (generate_geobuffer_list conv table)) as [|entry l];
        [congruence|].
      rewrite report_nonempty, Hwr. unfold write_failure_events.
      destruct (fs_write_fault fs (output_file_var gui)); simpl; auto. }
  destruct (run_events_shape fs conv gui events Hrun)
    as [[m [-> [Hm Hm']]]
       |[W [lines [table [HW [Hread [Htable [Hne Hev]]]]]]]].
  - split; [|split; [|split; [|exact Herr]]].
    + intros path. split.
      * intros [Hx|[]]. inversion Hx as [Hmx]. exfalso. exact (Hm path Hmx).
      * intros [content [Hx|[]]]. discriminate.
    + intros path content [Hx|[]]. discriminate.
    + intros path text [Hx|[]]. discriminate.
  - destruct (fs_writable fs (output_file_var gui)) eqn:Hwr.
    + subst events. split; [|split; [|split; [|exact Herr]]].
      * intros path. split.
        -- intros [Hx|[Hx|[]]]; [discriminate|].
           inversion Hx; subst. eexists. left. reflexivity.
        -- intros [content [Hx|[Hx|[]]]]; [|discriminate].
           inversion Hx; subst. right. left. reflexivity.
      * intros path content [Hx|[Hx|[]]]; [|discriminate].
        inversion Hx; subst.
        split; [reflexivity|]. split.
        { intros Hnil. apply map_eq_nil in Hnil. exact (Hne Hnil). }
        split; [reflexivity|]. split; [exact Hwr|].
        exists W, lines, table. auto.
      * intros path text [Hx|[Hx|[]]]; discriminate.
    + unfold write_failure_events in Hev.
      destruct (fs_write_fault fs (output_file_var gui)) as [n|] eqn:Hfault;
        subst events.
      * split; [|split; [|split; [|exact Herr]]].
        -- intros path. split.
           ++ intros [Hx|[Hx|[]]]; discriminate.
           ++ intros [content [Hx|[Hx|[]]]]; discriminate.
        -- intros path content [Hx|[Hx|[]]]; discriminate.
        -- intros path text [Hx|[Hx|[]]]; [|discriminate].
           inversion Hx; subst.
           split; [reflexivity|]. split; [reflexivity|]. split; [exact Hwr|].
           exists W, lines, table, n. auto.
      * split; [|split; [|split; [|exact Herr]]].
        -- intros path. split.
           ++ intros [Hx|[]]. discriminate.
           ++ intros [content [Hx|[]]]. discriminate.
        -- intros path content [Hx|[]]. discriminate.
        -- intros path text [Hx|[]]. discriminate.
Qed.

(** The statement at a run whose write fails after three characters. *)
Lemma run_writes_only_on_success_witness :
  run_processing
    (mkFileSystem (fun _ => Some ["1,1,1,1,1"; "1,1,1,1,1"]%string)
       (fun _ => CannotOpen) (fun _ => false) (fun _ => Some 3%nat))
    [(1, (5, 0)); (2, (7, 1))] (example_gui "1" false) =
  Ok [FilePartial "out.txt" "5,0"; MessageBox ErrWritingOutput] /\
  forall path,
    In (MessageBox (SuccessInfo path))
      [FilePartial "out.txt" "5,0"; MessageBox ErrWritingOutput] <->
    exists content,
      In (FileWritten path content)
        [FilePartial "out.txt" "5,0"; MessageBox ErrWritingOutput].
Proof.
  split; [reflexivity|].
  apply (run_writes_only_on_success
           (mkFileSystem (fun _ => Some ["1,1,1,1,1"; "1,1,1,1,1"]%string)
              (fun _ => CannotOpen) (fun _ => false) (fun _ => Some 3%nat))
           [(1, (5, 0)); (2, (7, 1))] (example_gui "1" false)).
  reflexivity.
Defined.

(** ** The row parser, line by line *)

Lemma drop_while_app_stop {A : Type} (p : A -> bool) c r : forall l,
  p c = false -> drop_while p (l ++ c :: r) = drop_while p l ++ c :: r.
Proof.
  intros l Hc. induction l as [|a l IH]; cbn [app drop_while].
  - rewrite Hc. reflexivity.
  - destruct (p a); [exact IH | reflexivity].
Qed.

Lemma drop_while_end_cons {A : Type} (p : A -> bool) c l :
  p c = false -> drop_while_end p (c :: l) = c :: drop_while_end p l.
Proof.
  intros Hc. unfold drop_while_end. cbn [rev].
  rewrite drop_while_app_stop by exact Hc.
  rewrite rev_app_distr. reflexivity.
Qed.

Lemma drop_while_end_snoc_drop {A : Type} (p : A -> bool) c l :
  p c = true -> drop_while_end p (l ++ [c]) = drop_while_end p l.
Proof.
  intros Hc. unfold drop_while_end. rewrite rev_app_distr.
  cbn [rev app drop_while]. rewrite Hc. reflexivity.
Qed.

Lemma drop_while_end_snoc_stop {A : Type} (p : A -> bool) c l :
  p c = false -> drop_while_end p (l ++ [c]) = l ++ [c].
Proof.
  intros Hc. unfold drop_while_end. rewrite rev_app_distr.
  cbn [rev app drop_while]. rewrite Hc. cbn [rev].
  rewrite rev_involutive. reflexivity.
Qed.

Lemma nonempty_false s : nonempty s = false -> s = EmptyString.
Proof. destruct s; [reflexivity | discriminate]. Qed.

Lemma rstrip_commas_cons c s :
  Ascii.eqb c "," = false ->
  rstrip_commas (String c s) = String c (rstrip_commas s).
Proof.
  intros Hc. unfold rstrip_commas. cbn [list_ascii_of_string].
  rewrite drop_while_end_cons by (rewrite Ascii.eqb_sym; exact Hc).
  reflexivity.
Qed.

Lemma rstrip_no_comma s : contains_comma s = false -> rstrip_commas s = s.
Proof.
  induction s as [|c s IH]; [reflexivity|].
  cbn [contains_comma]. intros H. apply orb_false_iff in H.
  destruct H as [Hc Hs]. rewrite rstrip_commas_cons by exact Hc.
  rewrite IH by exact Hs. reflexivity.
Qed.

Lemma split_no_comma s : contains_comma s = false -> split_commas s = [s].
Proof.
  induction s as [|c s IH]; [reflexivity|].
  cbn [contains_comma split_commas]. intros H. apply orb_false_iff in H.
  destruct H as [Hc Hs]. rewrite Hc, IH by exact Hs. reflexivity.
Qed.

(** A line without a comma has at most one token. *)
Lemma line_parts_no_comma s :
  contains_comma s = false -> (List.length (line_parts s) <= 1)%nat.
Proof.
  intros H. unfold line_parts. rewrite rstrip_no_comma, split_no_comma by exact H.
  cbn [filter]. destruct (nonempty s); cbn [List.length]; lia.
Qed.

Lemma marker_head_char c :
  lower_ascii c = "d"%char ->
  is_int_space c = false /\ Ascii.eqb c "," = false /\
  Ascii.eqb c "-" = false /\
  Ascii.eqb c "+" = false /\ digit_val c = None /\ Ascii.eqb c "_" = false.
Proof.
  destruct c as [[] [] [] [] [] [] [] []]; vm_compute; intros H;
    try discriminate H; repeat split; reflexivity.
Qed.

Lemma marker_head s :
  startswith (lower s) "data=" = true ->
  exists c s', s = String c s' /\ lower_ascii c = "d"%char.
Proof.
  unfold startswith. destruct s as [|c s']; cbn [lower String.prefix].
  - discriminate.
  - destruct (ascii_dec "d" (lower_ascii c)) as [E|E]; [|discriminate].
    intros _. exists c, s'. split; [reflexivity | symmetry; exact E].
Qed.

(** A token that starts with a character that is no sign, digit or space
    is not an integer. *)
Lemma py_int_bad_head c t :
  is_int_space c = false -> Ascii.eqb c "-" = false ->
  Ascii.eqb c "+" = false ->
  digit_val c = None -> Ascii.eqb c "_" = false ->
  py_int (String c t) = None.
Proof.
  intros Hsp Hm Hp Hd Hu. unfold py_int, int_strip.
  cbn [list_ascii_of_string drop_while].
  rewrite Hsp, drop_while_end_cons by exact Hsp.
  rewrite Hm, Hp. unfold int_literal. cbn [int_digits].
  rewrite Hd, Hu. reflexivity.
Qed.

Lemma line_parts_head c s :
  Ascii.eqb c "," = false ->
  exists t rest, line_parts (String c s) = String c t :: rest.
Proof.
  intros Hc. unfold line_parts. rewrite rstrip_commas_cons by exact Hc.
  cbn [split_commas]. rewrite Hc.
  destruct (split_commas (rstrip_commas s)) as [|t ts]; cbn [filter nonempty];
    eexists; eexists; reflexivity.
Qed.

(** The tokens of a marker line never make a row. *)
Lemma marker_line_no_row s :
  startswith (lower s) "data=" = true -> int_all (line_parts s) = None.
Proof.
  intros H. destruct (marker_head s H) as [c [s' [-> Hc]]].
  destruct (marker_head_char c Hc) as [Hsp [Hco [Hm [Hp [Hd Hu]]]]].
  destruct (line_parts_head c s' Hco) as [t [rest ->]].
  cbn [int_all]. rewrite py_int_bad_head by assumption. reflexivity.
Qed.

(** One turn of the loop appends the rows of the line, whatever the state. *)
Lemma parse_line_rows st line :
  level_rows (parse_line st line) = level_rows st ++ line_rows line.
Proof.
  unfold parse_line, line_rows.
  destruct (nonempty (strip line)) eqn:Hne; cbn [negb].
  2: { apply nonempty_false in Hne. rewrite Hne. cbn. rewrite app_nil_r.
       reflexivity. }
  destruct (startswith (lower (strip line)) "data=") eqn:Hmark.
  { rewrite (marker_line_no_row _ Hmark). cbn [level_rows].
    destruct (Nat.eqb _ 5); rewrite app_nil_r; reflexivity. }
  destruct (data_started st || contains_comma (strip line)) eqn:Hcand.
  - destruct (Nat.eqb (List.length (line_parts (strip line))) 5); cbn [negb].
    + destruct (int_all (line_parts (strip line))); cbn [level_rows];
        [reflexivity | rewrite app_nil_r; reflexivity].
    + rewrite app_nil_r. reflexivity.
  - apply orb_false_iff in Hcand. destruct Hcand as [_ Hcomma].
    pose proof (line_parts_no_comma _ Hcomma) as Hlen.
    replace (Nat.eqb (List.length (line_parts (strip line))) 5) with false.
    + rewrite app_nil_r. reflexivity.
    + symmetry. apply Nat.eqb_neq. lia.
Qed.

Lemma parse_fold_linewise lines : forall st,
  level_rows (fold_left parse_line lines st) =
  level_rows st ++ flat_map line_rows lines.
Proof.
  induction lines as [|line lines IH]; intros st; cbn [fold_left flat_map].
  - rewrite app_nil_r. reflexivity.
  - rewrite IH, parse_line_rows, app_assoc. reflexivity.
Qed.

(** The grid is made line by line from the tokens alone: the marker line,
    the data mode and the test for a comma change no row.  Each line gives
    the row of its five integers or nothing, in file order. *)
Theorem parse_lines_linewise :
  forall lines : list string,
    parse_lines lines = flat_map line_rows lines /\
    (forall started rows line,
        level_rows (parse_line (mkParserState started rows) line) =
        rows ++ line_rows line).
Proof.
  intros lines. split.
  - unfold parse_lines. rewrite parse_fold_linewise. reflexivity.
  - intros started rows line. apply parse_line_rows.
Qed.

Lemma line_rows_length line : (List.length (line_rows line) <= 1)%nat.
Proof.
  unfold line_rows. destruct (Nat.eqb _ 5); [|cbn; lia].
  destruct (int_all _); cbn; lia.
Qed.

(** The grid of two files put one after the other is the grid of the first
    followed by the grid of the second, and a grid has at most as many
    rows as the file has lines. *)
Theorem parse_lines_concatenation :
  forall lines1 lines2 : list string,
    parse_lines (lines1 ++ lines2) = parse_lines lines1 ++ parse_lines lines2 /\
    (List.length (parse_lines lines1) <= List.length lines1)%nat.
Proof.
  intros lines1 lines2. unfold parse_lines. rewrite !parse_fold_linewise.
  cbn [level_rows app]. split.
  - apply flat_map_app.
  - induction lines1 as [|line lines1 IH]; cbn [flat_map List.length]; [lia|].
    rewrite length_app. pose proof (line_rows_length line). lia.
Qed.

(** ** Written integers and written lines *)

Lemma chars_app (a b : string) :
  list_ascii_of_string (a ++ b) =
  list_ascii_of_string a ++ list_ascii_of_string b.
Proof.
  induction a as [|c a IH]; [reflexivity|].
  cbn [String.append list_ascii_of_string app]. rewrite IH. reflexivity.
Qed.

Lemma string_app_assoc (a b c : string) :
  ((a ++ b) ++ c)%string = (a ++ (b ++ c))%string.
Proof.
  induction a as [|x a IH]; [reflexivity|].
  cbn [String.append]. rewrite IH. reflexivity.
Qed.

Lemma string_app_empty (a : string) : (a ++ EmptyString)%string = a.
Proof.
  induction a as [|x a IH]; [reflexivity|].
  cbn [String.append]. rewrite IH. reflexivity.
Qed.

Lemma digit_char_facts c :
  digit_char c = true ->
  plain_char c = true /\ Ascii.eqb c "-" = false /\ Ascii.eqb c "+" = false.
Proof.
  destruct c as [[] [] [] [] [] [] [] []]; vm_compute; intros H;
    try discriminate H; repeat split; reflexivity.
Qed.

Lemma plain_char_facts c :
  plain_char c = true -> is_space c = false /\ Ascii.eqb c "," = false.
Proof.
  unfold plain_char. intros H. apply andb_true_iff in H.
  destruct H as [H1 H2]. apply negb_true_iff in H1, H2. auto.
Qed.

Lemma uint_chars_digits d :
  Forall (fun c => digit_char c = true)
    (list_ascii_of_string (NilEmpty.string_of_uint d)).
Proof.
  induction d; cbn [NilEmpty.string_of_uint list_ascii_of_string];
    constructor; auto.
Qed.

Lemma int_digits_uint_after d : forall acc,
  int_digits acc true (list_ascii_of_string (NilEmpty.string_of_uint d)) =
  Some (uint_value acc d).
Proof.
  induction d; intros acc;
    cbn [NilEmpty.string_of_uint list_ascii_of_string uint_value];
    try reflexivity; cbn [int_digits];
    match goal with
    | |- context [digit_val ?c] =>
        change (digit_val c) with (Some (Z.of_nat (nat_of_ascii c - 48)))
    end; cbn [nat_of_ascii]; apply IHd.
Qed.

Lemma int_digits_uint d acc :
  d <> Decimal.Nil ->
  int_digits acc false (list_ascii_of_string (NilEmpty.string_of_uint d)) =
  Some (uint_value acc d).
Proof.
  intros Hd. destruct d; [congruence| ..];
    cbn [NilEmpty.string_of_uint list_ascii_of_string uint_value int_digits];
    match goal with
    | |- context [digit_val ?c] =>
        change (digit_val c) with (Some (Z.of_nat (nat_of_ascii c - 48)))
    end; apply int_digits_uint_after.
Qed.

Lemma uint_value_acc d : forall acc,
  Zpos (Pos.of_uint_acc d acc) = uint_value (Zpos acc) d.
Proof.
  induction d; intros acc; cbn [Pos.of_uint_acc uint_value];
    [reflexivity| ..]; rewrite IHd; f_equal; lia.
Qed.

Lemma uint_value_of_uint d : Z.of_N (Pos.of_uint d) = uint_value 0 d.
Proof.
  induction d; cbn [Pos.of_uint uint_value]; [reflexivity| ..];
    try (rewrite IHd; reflexivity);
    cbn [Z.of_N]; rewrite uint_value_acc; reflexivity.
Qed.

Lemma uint_value_to_uint p : uint_value 0 (Pos.to_uint p) = Zpos p.
Proof.
  rewrite <- uint_value_of_uint, DecimalPos.Unsigned.of_to. reflexivity.
Qed.

(** The shape of a written integer. *)
Lemma str_of_int_cases z :
  exists d,
    d <> Decimal.Nil /\
    (0 <= z /\ str_of_int z = NilEmpty.string_of_uint d /\ uint_value 0 d = z
     \/
     z < 0 /\ str_of_int z = String "-" (NilEmpty.string_of_uint d) /\
     uint_value 0 d = - z).
Proof.
  unfold str_of_int. destruct z as [|p|p]; cbn [Z.to_int NilZero.string_of_int].
  - exists (Decimal.D0 Decimal.Nil). split; [discriminate|].
    left. repeat split; reflexivity || lia.
  - exists (Pos.to_uint p). split; [apply DecimalPos.Unsigned.to_uint_nonnil|].
    left. split; [lia|]. split; [|apply uint_value_to_uint].
    unfold NilZero.string_of_uint.
    pose proof (DecimalPos.Unsigned.to_uint_nonnil p).
    destruct (Pos.to_uint p); congruence.
  - exists (Pos.to_uint p). split; [apply DecimalPos.Unsigned.to_uint_nonnil|].
    right. split; [lia|]. split; [|rewrite uint_value_to_uint; lia].
    unfold NilZero.string_of_uint.
    pose proof (DecimalPos.Unsigned.to_uint_nonnil p).
    destruct (Pos.to_uint p); congruence.
Qed.

Lemma drop_while_end_none {A : Type} (p : A -> bool) l :
  Forall (fun c => p c = false) l -> drop_while_end p l = l.
Proof.
  induction 1 as [|c l Hc _ IH]; [reflexivity|].
  rewrite drop_while_end_cons by exact Hc. rewrite IH. reflexivity.
Qed.

Lemma drop_while_head {A : Type} (p : A -> bool) l :
  Forall (fun c => p c = false) l -> drop_while p l = l.
Proof.
  intros H. destruct H as [|c l Hc _]; [reflexivity|].
  cbn [drop_while]. rewrite Hc. reflexivity.
Qed.

Lemma strip_no_space s :
  Forall (fun c => is_space c = false) (list_ascii_of_string s) ->
  strip s = s.
Proof.
  intros H. unfold strip.
  rewrite drop_while_head, drop_while_end_none by exact H.
  apply string_of_list_ascii_of_string.
Qed.

Lemma strip_trailing_newline b :
  Forall (fun c => is_space c = false) (list_ascii_of_string b) ->
  strip (b ++ newline) = b.
Proof.
  intros H. unfold strip. rewrite chars_app.
  change (list_ascii_of_string newline) with [ascii_of_nat 10].
  destruct (list_ascii_of_string b) as [|c l] eqn:Hb.
  - cbn. rewrite <- (string_of_list_ascii_of_string b), Hb. reflexivity.
  - inversion H as [|? ? Hc Hl]; subst. cbn [app drop_while]. rewrite Hc.
    change (c :: l ++ [ascii_of_nat 10]) with ((c :: l) ++ [ascii_of_nat 10]).
    rewrite drop_while_end_snoc_drop by reflexivity.
    rewrite drop_while_end_none by exact H.
    rewrite <- Hb. apply string_of_list_ascii_of_string.
Qed.

Lemma Forall_plain_no_space l :
  Forall (fun c => plain_char c = true) l ->
  Forall (fun c => is_space c = false) l.
Proof.
  apply Forall_impl. intros c Hc. apply plain_char_facts. exact Hc.
Qed.

Lemma Forall_digit_plain l :
  Forall (fun c => digit_char c = true) l ->
  Forall (fun c => plain_char c = true) l.
Proof.
  apply Forall_impl. intros c Hc. apply digit_char_facts. exact Hc.
Qed.

(** A written integer is made of plain characters, is not empty, and ends
    with a digit. *)
Lemma str_of_int_plain z :
  Forall (fun c => plain_char c = true) (list_ascii_of_string (str_of_int z)).
Proof.
  destruct (str_of_int_cases z) as [d [_ [[_ [-> _]]|[_ [-> _]]]]].
  - apply Forall_digit_plain, uint_chars_digits.
  - cbn [list_ascii_of_string]. constructor; [reflexivity|].
    apply Forall_digit_plain, uint_chars_digits.
Qed.

Lemma uint_string_nonempty d :
  d <> Decimal.Nil ->
  exists c s, NilEmpty.string_of_uint d = String c s /\ digit_char c = true.
Proof.
  intros Hd. destruct d; [congruence| ..];
    cbn [NilEmpty.string_of_uint]; eexists; eexists; split; reflexivity.
Qed.

Lemma str_of_int_nonempty z : nonempty (str_of_int z) = true.
Proof.
  destruct (str_of_int_cases z) as [d [Hd [[_ [-> _]]|[_ [-> _]]]]].
  - destruct (uint_string_nonempty d Hd) as [c [s [-> _]]]. reflexivity.
  - reflexivity.
Qed.

Lemma str_of_int_last z :
  exists l c,
    list_ascii_of_string (str_of_int z) = l ++ [c] /\ digit_char c = true.
Proof.
  assert (Hu : forall d, d <> Decimal.Nil ->
            exists l c,
              list_ascii_of_string (NilEmpty.string_of_uint d) = l ++ [c] /\
              digit_char c = true).
  { intros d Hd. pose proof (uint_chars_digits d) as Hall.
    destruct (uint_string_nonempty d Hd) as [c0 [s0 [Hs _]]].
    assert (Hne : list_ascii_of_string (NilEmpty.string_of_uint d) <> []).
    { rewrite Hs. discriminate. }
    destruct (exists_last Hne) as [l [c Hlc]].
    exists l, c. split; [exact Hlc|].
    rewrite Hlc in Hall. apply Forall_app in Hall.
    destruct Hall as [_ Hc]. inversion Hc. assumption. }
  destruct (str_of_int_cases z) as [d [Hd [[_ [-> _]]|[_ [-> _]]]]].
  - apply Hu. exact Hd.
  - destruct (Hu d Hd) as [l [c [Hl Hc]]]. exists ("-"%char :: l), c.
    cbn [list_ascii_of_string]. rewrite Hl. split; [reflexivity | exact Hc].
Qed.

Lemma int_space_is_space c : is_space c = false -> is_int_space c = false.
Proof.
  destruct c as [[] [] [] [] [] [] [] []]; vm_compute; intros H;
    try discriminate H; reflexivity.
Qed.

Lemma int_strip_no_space s :
  Forall (fun c => is_space c = false) (list_ascii_of_string s) ->
  int_strip s = list_ascii_of_string s.
Proof.
  intros H. unfold int_strip.
  assert (H' : Forall (fun c => is_int_space c = false)
                 (list_ascii_of_string s)).
  { revert H. apply Forall_impl. intros c. apply int_space_is_space. }
  rewrite drop_while_head, drop_while_end_none by exact H'. reflexivity.
Qed.

(** Reading back a written integer gives the integer, when it has no more
    digits than [int] takes. *)
Lemma py_int_str_of_int z :
  py_int (str_of_int z) = if written_within_limit z then Some z else None.
Proof.
  unfold py_int, written_within_limit.
  rewrite int_strip_no_space
    by (apply Forall_plain_no_space, str_of_int_plain).
  destruct (str_of_int_cases z) as [d [Hd [[Hz [-> Hv]]|[Hz [-> Hv]]]]].
  - pose proof (int_digits_uint d 0 Hd) as Hdig.
    destruct (uint_string_nonempty d Hd) as [c [s [Hs Hc]]].
    rewrite Hs in *. cbn [list_ascii_of_string] in *.
    destruct (digit_char_facts c Hc) as [_ [Hm Hp]].
    rewrite Hm, Hp. unfold int_literal. rewrite Hdig.
    destruct (within_digit_limit (c :: list_ascii_of_string s)); congruence.
  - cbn [list_ascii_of_string]. rewrite Ascii.eqb_refl.
    unfold int_literal. rewrite (int_digits_uint d 0 Hd).
    change (within_digit_limit
              ("-"%char :: list_ascii_of_string (NilEmpty.string_of_uint d)))
      with (within_digit_limit
              (list_ascii_of_string (NilEmpty.string_of_uint d))).
    destruct (within_digit_limit _); cbn [option_map]; [|reflexivity].
    f_equal. lia.
Qed.

Lemma int_all_written row :
  int_all (map str_of_int row) =
  if forallb written_within_limit row then Some row else None.
Proof.
  induction row as [|z row IH]; [reflexivity|].
  cbn [map int_all forallb]. rewrite py_int_str_of_int, IH.
  destruct (written_within_limit z); [|reflexivity].
  destruct (forallb written_within_limit row); reflexivity.
Qed.

Lemma plain_no_comma s :
  Forall (fun c => plain_char c = true) (list_ascii_of_string s) ->
  contains_comma s = false.
Proof.
  induction s as [|c s IH]; [reflexivity|].
  cbn [list_ascii_of_string contains_comma]. intros H.
  inversion H as [|? ? Hc Hs]; subst.
  destruct (plain_char_facts c Hc) as [_ ->]. cbn [orb]. apply IH. exact Hs.
Qed.

Lemma split_app_comma s r :
  contains_comma s = false ->
  split_commas (s ++ String "," r) = s :: split_commas r.
Proof.
  induction s as [|c s IH]; [reflexivity|].
  cbn [contains_comma String.append split_commas]. intros H.
  apply orb_false_iff in H. destruct H as [Hc Hs].
  rewrite Hc, IH by exact Hs. reflexivity.
Qed.

Lemma split_join ss :
  ss <> [] ->
  (forall s, In s ss -> contains_comma s = false) ->
  split_commas (join_commas ss) = ss.
Proof.
  induction ss as [|s ss IH]; [congruence|]. intros _ Hall.
  destruct ss as [|s2 ss].
  - cbn [join_commas]. apply split_no_comma. apply Hall. left. reflexivity.
  - change (join_commas (s :: s2 :: ss))
      with (s ++ String "," (join_commas (s2 :: ss)))%string.
    rewrite split_app_comma by (apply Hall; left; reflexivity).
    rewrite IH; [reflexivity | discriminate|].
    intros s' Hs'. apply Hall. right. exact Hs'.
Qed.

(** The characters of the joined integers: no white space, a digit last. *)
Lemma join_written_chars row :
  row <> [] ->
  Forall (fun c => is_space c = false)
    (list_ascii_of_string (join_commas (map str_of_int row))) /\
  exists l c,
    list_ascii_of_string (join_commas (map str_of_int row)) = l ++ [c] /\
    digit_char c = true.
Proof.
  induction row as [|z row IH]; [congruence|]. intros _.
  destruct row as [|z2 row].
  - cbn [map join_commas]. split.
    + apply Forall_plain_no_space, str_of_int_plain.
    + apply str_of_int_last.
  - destruct IH as [Hsp [l [c [Hl Hc]]]]; [discriminate|].
    change (join_commas (map str_of_int (z :: z2 :: row)))
      with (str_of_int z
            ++ String "," (join_commas (map str_of_int (z2 :: row))))%string.
    rewrite chars_app. cbn [list_ascii_of_string]. split.
    + apply Forall_app. split.
      * apply Forall_plain_no_space, str_of_int_plain.
      * constructor; [reflexivity | exact Hsp].
    + exists (list_ascii_of_string (str_of_int z) ++ ","%char :: l), c.
      rewrite Hl. rewrite <- app_assoc. split; [reflexivity | exact Hc].
Qed.

(** The tokens of a written line are the written integers. *)
Lemma line_parts_decimal_line row trailing :
  row <> [] ->
  line_parts (strip (decimal_line row trailing)) = map str_of_int row.
Proof.
  intros Hrow. destruct (join_written_chars row Hrow) as [Hsp [l [c [Hl Hc]]]].
  destruct (digit_char_facts c Hc) as [Hplain _].
  destruct (plain_char_facts c Hplain) as [_ Hcomma].
  unfold decimal_line. rewrite <- string_app_assoc.
  rewrite strip_trailing_newline.
  2: { rewrite chars_app. apply Forall_app. split; [exact Hsp|].
       destruct trailing; cbn [list_ascii_of_string]; repeat constructor. }
  unfold line_parts.
  assert (Hr : rstrip_commas
                 (join_commas (map str_of_int row)
                  ++ (if trailing then String "," EmptyString else EmptyString)) =
               join_commas (map str_of_int row)).
  { unfold rstrip_commas. rewrite chars_app.
    assert (Hkeep : drop_while_end (Ascii.eqb ",")
                      (list_ascii_of_string (join_commas (map str_of_int row))) =
                    list_ascii_of_string (join_commas (map str_of_int row))).
    { rewrite Hl. apply drop_while_end_snoc_stop.
      rewrite Ascii.eqb_sym. exact Hcomma. }
    destruct trailing; cbn [list_ascii_of_string].
    - rewrite drop_while_end_snoc_drop by reflexivity.
      rewrite Hkeep. apply string_of_list_ascii_of_string.
    - rewrite app_nil_r, Hkeep. apply string_of_list_ascii_of_string. }
  rewrite Hr. rewrite split_join.
  - clear. induction row as [|z row IH]; [reflexivity|].
    cbn [map filter]. rewrite str_of_int_nonempty, IH. reflexivity.
  - destruct row; [congruence | discriminate].
  - intros s Hs. apply in_map_iff in Hs. destruct Hs as [z [<- _]].
    apply plain_no_comma, str_of_int_plain.
Qed.

(** *** How many digits a written integer has *)

Lemma filter_all {A : Type} (p : A -> bool) l :
  Forall (fun c => p c = true) l -> filter p l = l.
Proof.
  induction 1 as [|c l Hc _ IH]; [reflexivity|].
  cbn [filter]. rewrite Hc, IH. reflexivity.
Qed.

Lemma uint_value_bounds d : forall acc,
  0 <= acc ->
  let n := Z.of_nat
             (List.length (list_ascii_of_string (NilEmpty.string_of_uint d))) in
  acc * 10 ^ n <= uint_value acc d < (acc + 1) * 10 ^ n.
Proof.
  induction d; intros acc Hacc;
    cbn [NilEmpty.string_of_uint list_ascii_of_string List.length uint_value];
    cbn zeta;
    try (change (10 ^ Z.of_nat 0) with 1; lia);
    rewrite Nat2Z.inj_succ, Z.pow_succ_r by lia;
    match goal with
    | |- _ <= uint_value ?a _ < _ =>
        assert (Ha : 0 <= a) by lia;
        specialize (IHd a Ha); cbn zeta in IHd
    end;
    match goal with
    | |- context [10 ^ ?n] =>
        assert (Hp : 0 < 10 ^ n) by (apply Z.pow_pos_nonneg; lia);
        generalize dependent (10 ^ n)
    end; intros; nia.
Qed.

Lemma to_uint_no_leading_zero p d' : Pos.to_uint p <> Decimal.D0 d'.
Proof.
  intros E.
  pose proof (DecimalPos.Unsigned.to_of (Pos.to_uint p)) as H.
  rewrite DecimalPos.Unsigned.of_to in H. cbn [N.to_uint] in H.
  rewrite E in H. unfold Decimal.unorm in H.
  destruct (Decimal.nzhead (Decimal.D0 d')) eqn:Hn;
    try (symmetry in H; exact (DecimalFacts.nzhead_nonzero _ _
                                 (eq_trans Hn H))).
  inversion H; subst d'.
  apply (DecimalPos.Unsigned.to_uint_nonzero p). exact E.
Qed.

Lemma written_digits_pos p :
  let n := Z.of_nat
             (List.length
                (list_ascii_of_string
                   (NilEmpty.string_of_uint (Pos.to_uint p)))) in
  10 ^ (n - 1) <= Zpos p < 10 ^ n.
Proof.
  cbn zeta. pose proof (uint_value_to_uint p) as Hv.
  pose proof (to_uint_no_leading_zero p) as Hlead.
  pose proof (DecimalPos.Unsigned.to_uint_nonnil p) as Hnil.
  destruct (Pos.to_uint p) as [|d|d|d|d|d|d|d|d|d|d];
    [congruence | exfalso; exact (Hlead d eq_refl) | ..];
    cbn [NilEmpty.string_of_uint list_ascii_of_string List.length uint_value]
      in *;
    rewrite Nat2Z.inj_succ;
    replace (Z.succ
               (Z.of_nat
                  (List.length
                     (list_ascii_of_string (NilEmpty.string_of_uint d)))) - 1)
      with (Z.of_nat
              (List.length (list_ascii_of_string (NilEmpty.string_of_uint d))))
      by lia;
    rewrite Z.pow_succ_r by lia;
    match type of Hv with
    | uint_value ?a _ = _ =>
        pose proof (uint_value_bounds d a ltac:(lia)) as Hb; cbn zeta in Hb
    end;
    rewrite Hv in Hb;
    match goal with
    | |- context [10 ^ ?n] =>
        assert (Hp : 0 < 10 ^ n) by (apply Z.pow_pos_nonneg; lia);
        generalize dependent (10 ^ n)
    end; intros; nia.
Qed.

Lemma within_limit_uint d :
  within_digit_limit (list_ascii_of_string (NilEmpty.string_of_uint d)) =
  (Z.of_nat (List.length (list_ascii_of_string (NilEmpty.string_of_uint d)))
   <=? int_max_str_digits).
Proof.
  unfold within_digit_limit. rewrite filter_all by apply uint_chars_digits.
  reflexivity.
Qed.

(** An integer is written with at most 4300 digits exactly when it is
    below 10^4300 in absolute value. *)
Lemma written_within_limit_iff z :
  written_within_limit z = true <-> Z.abs z < 10 ^ int_max_str_digits.
Proof.
  assert (Hpos : forall p,
            within_digit_limit
              (list_ascii_of_string (NilEmpty.string_of_uint (Pos.to_uint p)))
            = true <-> Zpos p < 10 ^ int_max_str_digits).
  { intros p. rewrite within_limit_uint, Z.leb_le.
    pose proof (written_digits_pos p) as Hb. cbn zeta in Hb.
    set (n := Z.of_nat _) in *. unfold int_max_str_digits. split.
    - intros Hn. apply Z.lt_le_trans with (10 ^ n); [lia|].
      apply Z.pow_le_mono_r; lia.
    - intros Hlt. destruct (Z_le_gt_dec n 4300) as [Hle|Hgt]; [exact Hle|].
      assert (10 ^ 4300 <= 10 ^ (n - 1)) by (apply Z.pow_le_mono_r; lia).
      lia. }
  unfold written_within_limit, str_of_int.
  destruct z as [|p|p]; cbn [Z.to_int NilZero.string_of_int Z.abs].
  - split; [intros _; apply Z.pow_pos_nonneg; unfold int_max_str_digits; lia
           | intros _; reflexivity].
  - replace (NilZero.string_of_uint (Pos.to_uint p))
      with (NilEmpty.string_of_uint (Pos.to_uint p)); [apply Hpos|].
    unfold NilZero.string_of_uint.
    pose proof (DecimalPos.Unsigned.to_uint_nonnil p).
    destruct (Pos.to_uint p); congruence.
  - replace (NilZero.string_of_uint (Pos.to_uint p))
      with (NilEmpty.string_of_uint (Pos.to_uint p)); [apply Hpos|].
    unfold NilZero.string_of_uint.
    pose proof (DecimalPos.Unsigned.to_uint_nonnil p).
    destruct (Pos.to_uint p); congruence.
Qed.

(** A row of five integers written in decimal, with commas between them
    and with or without a comma at the end, parses to that row when each
    integer has at most 4300 digits, that is, is below 10^4300 in absolute
    value; with a longer integer, or written from another number of
    integers, the line gives no row. *)
Theorem written_row_parses :
  forall (row : list Z) (trailing_comma : bool),
    parse_lines [decimal_line row trailing_comma] =
    (if Nat.eqb (List.length row) 5 && forallb written_within_limit row
     then [row] else []) /\
    (forall z, written_within_limit z = true <->
               Z.abs z < 10 ^ int_max_str_digits).
Proof.
  intros row trailing. split; [|apply written_within_limit_iff].
  unfold parse_lines. rewrite parse_fold_linewise.
  cbn [level_rows flat_map app]. rewrite app_nil_r.
  destruct row as [|z row].
  - destruct trailing; reflexivity.
  - unfold line_rows. rewrite line_parts_decimal_line by discriminate.
    rewrite length_map, int_all_written.
    destruct (Nat.eqb (List.length (z :: row)) 5); [|reflexivity].
    destruct (forallb written_within_limit (z :: row)); reflexivity.
Qed.

Lemma format_entry_decimal_line x y z :
  format_entry (x, y, z) = decimal_line [x; y; z] false.
Proof.
  unfold format_entry, decimal_line. cbn [map join_commas].
  change (String "," EmptyString ++ str_of_int y
          ++ String "," EmptyString ++ str_of_int z ++ newline)%string
    with (String "," (str_of_int y ++ String "," (str_of_int z ++ newline)))%string.
  change (EmptyString ++ newline)%string with newline.
  rewrite !string_app_assoc. cbn [String.append].
  rewrite !string_app_assoc. reflexivity.
Qed.

(** A line of the output file splits, with the parser's own tokenizer,
    into the three written integers of its entry, and [int] reads each of
    them back when it is below 10^4300 in absolute value, the size up to
    which [int] reads a decimal at all; with three tokens to a line, a
    written file is not a level file: the parser finds no row in it. *)
Theorem written_entry_reads_back :
  forall (x y z : Z),
    line_parts (strip (format_entry (x, y, z))) =
    [str_of_int x; str_of_int y; str_of_int z] /\
    (Z.abs x < 10 ^ int_max_str_digits ->
     Z.abs y < 10 ^ int_max_str_digits ->
     Z.abs z < 10 ^ int_max_str_digits ->
     int_all (line_parts (strip (format_entry (x, y, z)))) = Some [x; y; z]) /\
    (Z.abs z < 10 ^ int_max_str_digits -> py_int (str_of_int z) = Some z) /\
    forall entries : list GeoBufferEntry,
      parse_lines (map format_entry entries) = [].
Proof.
  intros x y z.
  assert (Hparts : line_parts (strip (format_entry (x, y, z))) =
                   [str_of_int x; str_of_int y; str_of_int z]).
  { rewrite format_entry_decimal_line, line_parts_decimal_line by discriminate.
    reflexivity. }
  split; [exact Hparts|]. split; [|split].
  - intros Hx Hy Hz. apply written_within_limit_iff in Hx, Hy, Hz.
    rewrite Hparts.
    change [str_of_int x; str_of_int y; str_of_int z]
      with (map str_of_int [x; y; z]).
    rewrite int_all_written. cbn [forallb]. rewrite Hx, Hy, Hz. reflexivity.
  - intros Hz. apply written_within_limit_iff in Hz.
    rewrite py_int_str_of_int, Hz. reflexivity.
  - intros entries. unfold parse_lines. rewrite parse_fold_linewise.
    cbn [level_rows app].
    induction entries as [|[[a b] c] entries IH]; [reflexivity|].
    cbn [map flat_map]. rewrite IH, app_nil_r.
    unfold line_rows.
    rewrite format_entry_decimal_line, line_parts_decimal_line by discriminate.
    reflexivity.
Qed.

(** The statement for the entry (5, 0, 3). *)
Lemma written_entry_reads_back_witness :
  int_all (line_parts (strip (format_entry (5, 0, 3)))) = Some [5; 0; 3].
Proof.
  apply (proj1 (proj2 (written_entry_reads_back 5 0 3)));
    vm_compute; reflexivity.
Defined.

(** ** The configuration *)

Lemma set_all_NoDup ids mapping : forall m : ConvMap,
  NoDup (keys m) -> NoDup (keys (set_all ids mapping m)).
Proof.
  induction ids as [|k ids IH]; intros m Hnd; [exact Hnd|].
  cbn [set_all fold_left]. fold (set_all ids mapping (set Z.eq_dec k mapping m)).
  apply IH, NoDup_keys_set, Hnd.
Qed.

Lemma load_conversion_map_gen (data : list MapGroup) id : forall m : ConvMap,
  let m' :=
    fold_left
      (fun conversion_map (entry : MapGroup) =>
         fold_left (fun m id_val => set Z.eq_dec id_val (snd entry) m)
           (fst entry) conversion_map)
      data m in
  (NoDup (keys m) -> NoDup (keys m')) /\
  get Z.eq_dec m' id =
  fold_left
    (fun acc (entry : MapGroup) =>
       if in_dec Z.eq_dec id (fst entry) then Some (snd entry) else acc)
    data (get Z.eq_dec m id).
Proof.
  induction data as [|[ids to] data IH]; intros m; cbn [fold_left fst snd].
  - split; auto.
  - change (fold_left (fun m0 id_val => set Z.eq_dec id_val to m0) ids m)
      with (set_all ids to m).
    destruct (IH (set_all ids to m)) as [Hnd Hget]. split.
    + intros H. apply Hnd, set_all_NoDup, H.
    + cbn zeta in Hget. rewrite Hget, set_all_get. reflexivity.
Qed.

Lemma last_group_found (data : list MapGroup) id : forall acc,
  fold_left
    (fun acc (entry : MapGroup) =>
       if in_dec Z.eq_dec id (fst entry) then Some (snd entry) else acc)
    data acc <> None <->
  acc <> None \/ exists entry, In entry data /\ In id (fst entry).
Proof.
  induction data as [|entry data IH]; intros acc; cbn [fold_left].
  - split; [auto | intros [H|[e [[] _]]]; exact H].
  - rewrite IH. destruct (in_dec Z.eq_dec id (fst entry)) as [Hin|Hout].
    + split; [|intros _; left; discriminate].
      intros _. right. exists entry. split; [left; reflexivity | exact Hin].
    + split.
      * intros [H|[e [He Hid]]]; [left; exact H|].
        right. exists e. split; [right; exact He | exact Hid].
      * intros [H|[e [[<-|He] Hid]]]; [left; exact H | contradiction|].
        right. exists e. split; assumption.
Qed.

(** In the conversion map each id is there once, with the category of the
    last group that lists it; an id that no group lists is not mapped. *)
Theorem conversion_map_last_group_wins :
  forall (data : list MapGroup),
    NoDup (keys (load_conversion_map data)) /\
    (forall id, get Z.eq_dec (load_conversion_map data) id =
                last_group_category data id) /\
    (forall id, In id (keys (load_conversion_map data)) <->
                exists entry, In entry data /\ In id (fst entry)).
Proof.
  intros data.
  assert (Hget : forall id, get Z.eq_dec (load_conversion_map data) id =
                            last_group_category data id).
  { intros id. destruct (load_conversion_map_gen data id []) as [_ H]. exact H. }
  split; [|split; [exact Hget|]].
  - destruct (load_conversion_map_gen data 0 []) as [H _]. apply H. constructor.
  - intros id. split.
    + intros Hin. destruct (keys_get_Some Z.eq_dec _ _ Hin) as [v Hv].
      rewrite Hget in Hv.
      assert (Hne : last_group_category data id <> None) by congruence.
      apply last_group_found in Hne.
      destruct Hne as [Hne|Hex]; [congruence | exact Hex].
    + intros Hex.
      assert (Hne : last_group_category data id <> None).
      { apply last_group_found. right. exact Hex. }
      rewrite <- Hget in Hne.
      destruct (get Z.eq_dec (load_conversion_map data) id) eqn:E;
        [|congruence].
      eapply get_Some_keys. exact E.
Qed.

Lemma dict_ext {K V : Type} (dec : forall a b : K, {a = b} + {a <> b}) :
  forall d1 d2 : dict K V,
    keys d1 = keys d2 -> NoDup (keys d1) ->
    (forall k, get dec d1 k = get dec d2 k) -> d1 = d2.
Proof.
  induction d1 as [|[k v] d1 IH]; intros [|[k' v'] d2] Hk Hnd Hget;
    try discriminate; [reflexivity|].
  cbn [keys map fst] in Hk. inversion Hk as [[Hkk Hrest]]. subst k'.
  inversion Hnd as [|? ? Hout Hnd']; subst.
  pose proof (Hget k) as Hv. cbn [get] in Hv.
  destruct (dec k k); [|congruence]. inversion Hv; subst v'. f_equal.
  apply IH; [exact Hrest | exact Hnd'|].
  intros k0. specialize (Hget k0). cbn [get] in Hget.
  destruct (dec k0 k) as [->|Hne]; [|exact Hget].
  assert (H1 : get dec d1 k = None) by (apply get_None_iff; exact Hout).
  assert (H2 : get dec d2 k = None).
  { apply get_None_iff. change (keys d2) with (map fst d2).
    rewrite <- Hrest. exact Hout. }
  congruence.
Qed.

Lemma keys_set_by_keys (m m' : ConvMap) k v v' :
  keys m = keys m' ->
  keys (set Z.eq_dec k v m) = keys (set Z.eq_dec k v' m').
Proof.
  intros Hk. destruct (in_dec Z.eq_dec k (keys m)) as [Hin|Hout].
  - rewrite !keys_set_present; [exact Hk | rewrite <- Hk; exact Hin | exact Hin].
  - rewrite !keys_set_absent; [rewrite Hk; reflexivity
                              | rewrite <- Hk; exact Hout | exact Hout].
Qed.

Lemma set_all_keys_by_keys ids v v' : forall m m' : ConvMap,
  keys m = keys m' -> keys (set_all ids v m) = keys (set_all ids v' m').
Proof.
  induction ids as [|k ids IH]; intros m m' Hk; [exact Hk|].
  cbn [set_all fold_left].
  fold (set_all ids v (set Z.eq_dec k v m)).
  fold (set_all ids v' (set Z.eq_dec k v' m')).
  apply IH, keys_set_by_keys, Hk.
Qed.

Lemma set_all_keys_present ids v : forall m : ConvMap,
  (forall id, In id ids -> In id (keys m)) ->
  keys (set_all ids v m) = keys m.
Proof.
  induction ids as [|k ids IH]; intros m Hall; [reflexivity|].
  cbn [set_all fold_left]. fold (set_all ids v (set Z.eq_dec k v m)).
  assert (Hk : keys (set Z.eq_dec k v m) = keys m).
  { apply keys_set_present. apply Hall. left. reflexivity. }
  rewrite IH; [exact Hk|].
  intros id Hin. rewrite Hk. apply Hall. right. exact Hin.
Qed.

(** A new override replaces the one before it entirely: the conversion map
    is the one the new override gives on the map as loaded, and overrides
    after the first add no key and move none. *)
Theorem roller_override_replaces_previous :
  forall (roller_mappings : dict string Category) (first second : string)
         (conv : ConvMap),
    NoDup (keys conv) ->
    apply_roller_mapping roller_mappings second
      (apply_roller_mapping roller_mappings first conv) =
    apply_roller_mapping roller_mappings second conv /\
    keys (apply_roller_mapping roller_mappings second
            (apply_roller_mapping roller_mappings first conv)) =
    keys (apply_roller_mapping roller_mappings first conv).
Proof.
  intros rm first second conv Hnd. unfold apply_roller_mapping.
  set (v1 := roller_category rm first). set (v2 := roller_category rm second).
  assert (Hkeys : keys (set_all ROLLER_IDS v2 (set_all ROLLER_IDS v1 conv)) =
                  keys (set_all ROLLER_IDS v1 conv)).
  { apply set_all_keys_present. intros id Hin.
    apply set_all_keys. left. exact Hin. }
  split; [|exact Hkeys].
  apply (dict_ext Z.eq_dec).
  - rewrite Hkeys. apply set_all_keys_by_keys. reflexivity.
  - rewrite Hkeys. apply set_all_NoDup. exact Hnd.
  - intros k. rewrite !set_all_get.
    destruct (in_dec Z.eq_dec k ROLLER_IDS); reflexivity.
Qed.

(** The statement for a map in which one roller id is mapped by a group. *)
Lemma roller_override_replaces_previous_witness :
  NoDup (keys [(7, (2, 4)); (42, (1, 1))]) /\
  apply_roller_mapping [("Fast"%string, (30, 4)); ("Default"%string, (24, 4))]
    "Fast"
    (apply_roller_mapping
       [("Fast"%string, (30, 4)); ("Default"%string, (24, 4))] "Default"
       [(7, (2, 4)); (42, (1, 1))]) =
  apply_roller_mapping [("Fast"%string, (30, 4)); ("Default"%string, (24, 4))]
    "Fast" [(7, (2, 4)); (42, (1, 1))].
Proof.
  assert (H : NoDup (keys [(7, (2, 4)); (42, (1, 1))])).
  { repeat constructor; simpl; intuition discriminate. }
  split; [exact H|].
  apply (roller_override_replaces_previous
           [("Fast"%string, (30, 4)); ("Default"%string, (24, 4))]
           "Default" "Fast" [(7, (2, 4)); (42, (1, 1))] H).
Defined.

Lemma add_roller_entry_cases (acc : dict string RawCategory) (e : json) :
  match entry_fault e with
  | Some x => add_roller_entry acc e = Raise x
  | None =>
      exists acc',
        add_roller_entry acc e = Ok acc' /\
        (NoDup (keys acc) -> NoDup (keys acc')) /\
        forall name,
          get string_dec acc' name =
          match entry_category name e with
          | Some c => Some c
          | None => get string_dec acc name
          end
  end.
Proof.
  assert (Hskip : exists acc',
             @Ok (dict string RawCategory) acc = Ok acc' /\
             (NoDup (keys acc) -> NoDup (keys acc')) /\
             forall name : string,
               get string_dec acc' name = get string_dec acc name).
  { exists acc. auto. }
  destruct e as [| | | | | |fields]; try reflexivity.
  unfold entry_fault, add_roller_entry, entry_category, json_get.
  cbn [bind].
  destruct (get string_dec fields "name"%string) as [n|].
  2: { destruct (get string_dec fields "to"%string) as [[| | | | |items|]|];
       exact Hskip. }
  destruct (get string_dec fields "to"%string) as [[| | | | |items|]|];
    try (destruct n; exact Hskip).
  destruct (truthy n) eqn:Hn; cbn [negb].
  2: { destruct n as [| | | |s| |]; try exact Hskip.
       cbn [truthy] in Hn. rewrite Hn.
       destruct items as [|a [|b rest]]; exact Hskip. }
  destruct items as [|a [|b rest]]; try reflexivity.
  cbn [List.length Nat.ltb Nat.leb nth_item nth_error bind].
  destruct n as [| | | |s| |]; try reflexivity.
  cbn [json_strip bind]. cbn [truthy] in Hn. rewrite Hn. cbn [andb].
  eexists. split; [reflexivity|]. split.
  - apply NoDup_keys_set.
  - intros name. destruct (String.eqb_spec (strip s) name) as [->|Hne].
    + apply get_set_same.
    + apply get_set_other. exact Hne.
Qed.

Lemma load_roller_entries entries : forall acc : dict string RawCategory,
  match first_fault entries with
  | Some x => for_each entries add_roller_entry acc = Raise x
  | None =>
      exists rm,
        for_each entries add_roller_entry acc = Ok rm /\
        (NoDup (keys acc) -> NoDup (keys rm)) /\
        forall name,
          get string_dec rm name =
          fold_left
            (fun acc e => match entry_category name e with
                          | Some c => Some c
                          | None => acc
                          end)
            entries (get string_dec acc name)
  end.
Proof.
  induction entries as [|e entries IH]; intros acc; cbn [first_fault for_each].
  - exists acc. auto.
  - pose proof (add_roller_entry_cases acc e) as He.
    destruct (entry_fault e) as [x|].
    + rewrite He. reflexivity.
    + destruct He as [acc' [Hrun [Hnd Hget]]]. rewrite Hrun. cbn [bind].
      specialize (IH acc'). destruct (first_fault entries) as [x|].
      * exact IH.
      * destruct IH as [rm [Hrm [Hnd' Hget']]]. exists rm.
        split; [exact Hrm|]. split; [auto|].
        intros name. cbn [fold_left]. rewrite Hget', Hget. reflexivity.
Qed.

Lemma load_doc_cases doc :
  match doc_fault doc with
  | Some x => load_roller_mappings (Some doc) = Raise x
  | None => exists rm, load_roller_mappings (Some doc) = Ok rm
  end.
Proof.
  unfold load_roller_mappings.
  destruct doc as [|b|z|nz|s|entries|fields]; cbn [doc_fault truthy].
  - eexists. reflexivity.
  - destruct b; [reflexivity | eexists; reflexivity].
  - destruct (Z.eqb z 0); [eexists; reflexivity | reflexivity].
  - destruct nz; [reflexivity | eexists; reflexivity].
  - destruct s as [|c s]; [eexists; reflexivity | reflexivity].
  - destruct entries as [|e entries]; [eexists; reflexivity|].
    cbn [json_iter bind].
    pose proof (load_roller_entries (e :: entries) []) as H.
    destruct (first_fault (e :: entries)) as [x|]; [exact H|].
    destruct H as [rm [Hrm _]]. exists rm. exact Hrm.
  - destruct fields as [|f fields]; [eexists; reflexivity | reflexivity].
Qed.

Lemma first_fault_kind entries x :
  first_fault entries = Some x -> x = IndexError \/ x = AttributeError.
Proof.
  induction entries as [|e entries IH]; cbn [first_fault]; [discriminate|].
  destruct (entry_fault e) as [y|] eqn:Hy; [|exact IH].
  intros H. inversion H; subst y. clear H.
  destruct e as [| | | | | |fields]; cbn [entry_fault] in Hy;
    try (inversion Hy; auto; fail).
  destruct (get string_dec fields "name"%string) as [n|]; [|discriminate].
  destruct (get string_dec fields "to"%string) as [[| | | | |items|]|];
    try discriminate.
  destruct (truthy n); [|discriminate].
  destruct (List.length items <? 2)%nat; [inversion Hy; auto|].
  destruct n; inversion Hy; auto.
Qed.

(** Building the table of roller mappings stops, with an exception that
    nothing catches, exactly at a faulty document: a [TypeError] for a
    document that is a number other than zero or [true]; an
    [AttributeError] for a document that is an object or a string with
    something in it, for an entry that is no object, and for an entry
    taken up whose name is no string; an [IndexError] for an entry taken
    up whose [to] has fewer than two items.  The first faulty entry
    decides, and no other exception is raised; without a fault, and
    without a file, the table is built. *)
Theorem roller_load_fails_on_faulty_document :
  forall (rm_data : option json),
    (forall e,
        load_roller_mappings rm_data = Raise e <->
        exists doc, rm_data = Some doc /\ doc_fault doc = Some e) /\
    (forall e, load_roller_mappings rm_data = Raise e ->
               e = IndexError \/ e = AttributeError \/ e = TypeError) /\
    ((exists roller_mappings, load_roller_mappings rm_data = Ok roller_mappings)
     <-> forall doc, rm_data = Some doc -> doc_fault doc = None).
Proof.
  intros rm_data.
  assert (Hiff : forall e,
             load_roller_mappings rm_data = Raise e <->
             exists doc, rm_data = Some doc /\ doc_fault doc = Some e).
  { intros e. destruct rm_data as [doc|].
    - pose proof (load_doc_cases doc) as H. split.
      + intros Hr. exists doc. split; [reflexivity|].
        destruct (doc_fault doc) as [x|]; [congruence|].
        destruct H as [rm Hrm]. congruence.
      + intros [d [Hd Hf]]. inversion Hd; subst d. rewrite Hf in H. exact H.
    - split; [discriminate | intros [d [Hd _]]; discriminate]. }
  split; [exact Hiff|]. split.
  - intros e He. apply Hiff in He. destruct He as [doc [_ Hf]].
    destruct doc as [|b|z|nz|s|entries|fields]; cbn [doc_fault] in Hf.
    + discriminate.
    + destruct b; inversion Hf; auto.
    + destruct (Z.eqb z 0); inversion Hf; auto.
    + destruct nz; inversion Hf; auto.
    + destruct (nonempty s); inversion Hf; auto.
    + destruct (first_fault_kind entries e Hf); auto.
    + destruct fields; inversion Hf; auto.
  - split.
    + intros [rm Hrm] doc ->. pose proof (load_doc_cases doc) as H.
      destruct (doc_fault doc) as [x|]; [congruence | reflexivity].
    + intros Hnone. destruct rm_data as [doc|].
      * pose proof (load_doc_cases doc) as H.
        rewrite (Hnone doc eq_refl) in H. exact H.
      * exists []. reflexivity.
Qed.




(** The loader on that file, on a short [to], on a name that is a number,
    and on a document that is an object, as the comment in the source
    writes the format. *)
Lemma roller_load_example :
  typed_roller_mappings
    (Some (JList
             [JObj [("name"%string, JStr " Fast ");
                    ("to"%string, JList [JInt 30; JInt 4])];
              JObj [("to"%string, JList [JInt 1; JInt 2])];
              JObj [("name"%string, JStr "Fast");
                    ("to"%string, JList [JInt 31; JInt 5; JInt 9])]]))
  = Ok (Some [("Fast"%string, (31, 5))]) /\
  load_roller_mappings
    (Some (JList [JObj [("name"%string, JStr "Fast");
                        ("to"%string, JList [JInt 30])]]))
  = Raise IndexError /\
  load_roller_mappings
    (Some (JList [JObj [("name"%string, JInt 7);
                        ("to"%string, JList [JInt 30; JInt 4])]]))
  = Raise AttributeError /\
  load_roller_mappings
    (Some (JObj [("name"%string, JStr "Default");
                 ("to"%string, JList [JInt 24; JInt 4])]))
  = Raise AttributeError /\
  load_roller_mappings (Some (JInt 5)) = Raise TypeError.
Proof. repeat split; reflexivity. Qed.

(** ** The window analyzer: what it reads, and longer grids *)

Lemma mem_by_keys (conv conv' : ConvMap) id :
  keys conv = keys conv' -> mem Z.eq_dec id conv = mem Z.eq_dec id conv'.
Proof.
  intros Hk. destruct (mem Z.eq_dec id conv') eqn:E.
  - apply mem_true_iff. rewrite Hk. apply mem_true_iff. exact E.
  - destruct (mem Z.eq_dec id conv) eqn:E'; [|reflexivity].
    apply mem_true_iff in E'. rewrite Hk in E'. apply mem_true_iff in E'.
    congruence.
Qed.

Lemma window_freq_by_keys (conv conv' : ConvMap) window :
  keys conv = keys conv' -> window_freq conv window = window_freq conv' window.
Proof.
  intros Hk. unfold window_freq. apply fold_left_ext_in.
  intros freq row _. unfold count_row. apply fold_left_ext_in.
  intros freq' item _. unfold count_item.
  rewrite (mem_by_keys conv conv' item Hk). reflexivity.
Qed.

(** The analyzer reads the ids of the mapping table and never their
    categories: two tables with the same ids in the same order give the
    same counts, so that an override of categories leaves them as they
    are. *)
Theorem analyze_chunks_reads_ids_only :
  forall (rows : list (list Z)) (W : Z) (conv conv' : ConvMap),
    keys conv = keys conv' ->
    analyze_chunks rows W conv = analyze_chunks rows W conv'.
Proof.
  intros rows W conv conv' Hk. unfold analyze_chunks, zero_counts.
  rewrite Hk. apply for_each_ext. intros mc start _. unfold analyze_window.
  rewrite (window_freq_by_keys conv conv' _ Hk). reflexivity.
Qed.

(** The statement for two tables that differ in a category. *)
Lemma analyze_chunks_reads_ids_only_witness :
  analyze_chunks [[1;1;1;1;1]; [2;2;2;2;2]] 1 [(1, (0, 0)); (2, (1, 0))] =
  analyze_chunks [[1;1;1;1;1]; [2;2;2;2;2]] 1 [(1, (24, 4)); (2, (1, 0))].
Proof.
  apply (analyze_chunks_reads_ids_only
           [[1;1;1;1;1]; [2;2;2;2;2]] 1
           [(1, (0, 0)); (2, (1, 0))] [(1, (24, 4)); (2, (1, 0))]).
  reflexivity.
Defined.

Lemma block_of_longer_grid (rows more : list (list Z)) s W :
  (s + W <= List.length rows)%nat ->
  firstn W (skipn s (rows ++ more)) = firstn W (skipn s rows).
Proof.
  intros H. rewrite skipn_app, firstn_app, length_skipn.
  replace (W - (List.length rows - s))%nat with 0%nat by lia.
  cbn [firstn]. apply app_nil_r.
Qed.

(** Rows added at the end of the grid never lower a count, for a window
    size from 0 up. *)
Theorem analyze_chunks_monotone_in_rows :
  forall (rows more : list (list Z)) (W : Z) (conv : ConvMap),
    0 <= W ->
    exists table table',
      analyze_chunks rows W conv = Ok table /\
      analyze_chunks (rows ++ more) W conv = Ok table' /\
      forall id, In id (keys conv) ->
        exists v v', get Z.eq_dec table id = Some v /\
                     get Z.eq_dec table' id = Some v' /\
                     v <= v'.
Proof.
  intros rows more W conv HW.
  destruct (analyze_chunks_slices rows W conv) as [t [Hrun [_ Hget]]].
  destruct (analyze_chunks_slices (rows ++ more) W conv)
    as [t' [Hrun' [_ Hget']]].
  exists t, t'. split; [exact Hrun|]. split; [exact Hrun'|].
  intros id Hin. eexists. eexists.
  split; [apply Hget; exact Hin|]. split; [apply Hget'; exact Hin|].
  apply max_list_mono. intros x Hx.
  apply in_map_iff in Hx. destruct Hx as [s [<- Hs]].
  apply in_py_range0 in Hs.
  exists (occurrences id (py_slice (rows ++ more) s (s + W))). split.
  - apply in_map_iff. exists s. split; [reflexivity|].
    apply in_py_range0. rewrite length_app. lia.
  - rewrite !py_slice_block by lia. unfold spec_block.
    rewrite block_of_longer_grid by lia. lia.
Qed.

(** The statement for the grid of the worked example and one more row. *)
Lemma analyze_chunks_monotone_in_rows_witness :
  0 <= 2 /\
  exists table table',
    analyze_chunks [[1;1;1;1;1]; [2;2;2;2;2]; [1;1;1;1;1]] 2
      [(1, (0, 0)); (2, (1, 0))] = Ok table /\
    analyze_chunks ([[1;1;1;1;1]; [2;2;2;2;2]; [1;1;1;1;1]] ++ [[1;1;2;2;2]]) 2
      [(1, (0, 0)); (2, (1, 0))] = Ok table' /\
    forall id, In id [1; 2] ->
      exists v v', get Z.eq_dec table id = Some v /\
                   get Z.eq_dec table' id = Some v' /\
                   v <= v'.
Proof.
  split; [lia|].
  apply (analyze_chunks_monotone_in_rows
           [[1;1;1;1;1]; [2;2;2;2;2]; [1;1;1;1;1]] [[1;1;2;2;2]] 2
           [(1, (0, 0)); (2, (1, 0))]).
  lia.
Defined.
